(** * The decision engines of the DIU admission portal ([app.py])

    The portal has three small engines: the tuition-waiver calculator
    ([DIUWaiverCalculator.calculate_waivers]), the department recommender
    ([recommend_programs]) and the FAQ matcher ([chat_with_bot]).  Each is
    embedded here as a Rocq function over the data it reads, and the
    properties the specification states about it are proved or refuted on
    that function.  Around them are the three validators
    ([validate_email], [validate_phone], [validate_nid]), the endpoint that
    calls them ([submit_application]) and the migration of the [programs]
    table in [init_db].

    Conventions of the embedding.
    - Python [str] is [string]; [list] is [list]; a JSON object used as a
      dictionary is a [gmap string json].
    - Python numbers are exact rationals ([Q]) or integers ([Z]): rounding of
      binary floating point is not modelled.
    - A Python exception is a value [Raise e] of the [result] type; code
      that can raise is written in the [result] monad.
    - The two third-party computations, the TF-IDF cosine similarity of
      scikit-learn and [difflib.SequenceMatcher.ratio], are parameters of the
      sections that use them.
    - Characters are ASCII: the Unicode digits and letters that [\d], [\w]
      and [str.isdigit] also accept are not modelled. *)

From Stdlib Require Import ZArith QArith Qminmax Ascii String List.
From Stdlib Require Import DecimalString DecimalPos DecimalZ.
From Stdlib Require Import Permutation Sorted Lia.
From stdpp Require Import base gmap strings list.
Import ListNotations.

#[local] Open Scope string_scope.

(** ** Exceptions *)

Inductive exn : Type :=
| ValueError
| TypeError
| IndexError.

Inductive result (A : Type) : Type :=
| Ok (a : A)
| Raise (e : exn).

Arguments Ok {A} a.
Arguments Raise {A} e.

#[global] Instance result_ret : MRet result := fun A a => Ok a.

#[global] Instance result_bind : MBind result := fun A B k r =>
  match r with
  | Ok a => k a
  | Raise e => Raise e
  end.

#[global] Instance result_fmap : FMap result := fun A B f r =>
  match r with
  | Ok a => Ok (f a)
  | Raise e => Raise e
  end.

(** [[f(x) for x in l]]: the elements are computed from left to right and
    the first exception aborts the comprehension. *)
Fixpoint map_result {A B : Type} (f : A -> result B) (l : list A) : result (list B) :=
  match l with
  | [] => Ok []
  | x :: l' =>
      y ← f x;
      ys ← map_result f l';
      Ok (y :: ys)
  end.

(** ** Comparison of rationals as booleans *)

Definition Qltb (x y : Q) : bool := negb (Qle_bool y x).
Definition Qgtb (x y : Q) : bool := Qltb y x.
Definition Qgeb (x y : Q) : bool := Qle_bool y x.

(** ** The Python string operations the engines call *)

Module Py.

(** [c in chars] for a character. *)
Fixpoint mem_char (c : ascii) (chars : string) : bool :=
  match chars with
  | EmptyString => false
  | String d chars' => Ascii.eqb c d || mem_char c chars'
  end.

(** [s.lstrip(chars)] *)
Fixpoint lstrip (chars s : string) : string :=
  match s with
  | EmptyString => EmptyString
  | String c s' => if mem_char c chars then lstrip chars s' else s
  end.

(** [s.rstrip(chars)] *)
Fixpoint rstrip (chars s : string) : string :=
  match s with
  | EmptyString => EmptyString
  | String c s' =>
      match rstrip chars s' with
      | EmptyString => if mem_char c chars then EmptyString else String c EmptyString
      | r => String c r
      end
  end.

(** [s.strip(chars)] *)
Definition strip (chars s : string) : string := rstrip chars (lstrip chars s).

(** The ASCII white space [int()] skips around a number:
    space, tab, line feed, vertical tab, form feed, carriage return. *)
Definition whitespace : string :=
  String " " (String "009" (String "010" (String "011" (String "012" (String "013" EmptyString))))).

Definition is_digit (c : ascii) : bool := mem_char c "0123456789".

(** The digits of a decimal literal with its underscores removed; [None]
    when the literal is empty or an underscore is not between two digits.
    [prev] tells whether the previous character was a digit. *)
Fixpoint digits (prev : bool) (s : string) : option string :=
  match s with
  | EmptyString => if prev then Some EmptyString else None
  | String c s' =>
      if is_digit c then option_map (String c) (digits true s')
      else if Ascii.eqb c "_" then (if prev then digits false s' else None)
      else None
  end.

(** [int(s)] on a string, base ten: surrounding white space, an optional
    sign, and digits that single underscores may group.  Anything else is
    a [ValueError]. *)
Definition int (s : string) : result Z :=
  let s := strip whitespace s in
  let '(negative, body) :=
    match s with
    | String c r =>
        if Ascii.eqb c "-" then (true, r)
        else if Ascii.eqb c "+" then (false, r)
        else (false, s)
    | EmptyString => (false, s)
    end in
  match digits false body with
  | None => Raise ValueError
  | Some ds =>
      match NilEmpty.uint_of_string ds with
      | None => Raise ValueError
      | Some d => Ok (if negative then - Z.of_uint d else Z.of_uint d)%Z
      end
  end.

(** [str(n)] for an integer. *)
Definition str (n : Z) : string := NilEmpty.string_of_int (Z.to_int n).

(** [c.lower()] on an ASCII letter; other characters are unchanged. *)
Definition lower_char (c : ascii) : ascii :=
  let n := nat_of_ascii c in
  if (65 <=? n)%nat && (n <=? 90)%nat then ascii_of_nat (n + 32) else c.

(** [s.lower()] *)
Fixpoint lower (s : string) : string :=
  match s with
  | EmptyString => EmptyString
  | String c s' => String (lower_char c) (lower s')
  end.

(** [needle in haystack] for strings: the needle starts at some position. *)
Fixpoint contains (needle haystack : string) : bool :=
  String.prefix needle haystack ||
  match haystack with
  | EmptyString => false
  | String _ h' => contains needle h'
  end.

(** [sep.join(l)] *)
Definition join (sep : string) (l : list string) : string := String.concat sep l.

(** [s.split(sep)] for a non-empty separator, scanning from the left.
    [cur] holds, reversed, the characters read since the last separator and
    [skip] counts the characters of a separator just found that are still
    to be passed over. *)
Fixpoint split_aux (sep : string) (skip : nat) (cur s : string) : list string :=
  match s with
  | EmptyString => [String.rev cur]
  | String c s' =>
      match skip with
      | S k => split_aux sep k cur s'
      | O =>
          if String.prefix sep s
          then String.rev cur :: split_aux sep (String.length sep - 1) EmptyString s'
          else split_aux sep O (String c cur) s'
      end
  end.

Definition split (sep s : string) : list string := split_aux sep O EmptyString s.

End Py.

(** ** Python's stable sort, in descending order of a key

    [sorted(l, key=f, reverse=True)] computes the key of every element, in
    order, and returns the elements by decreasing key; elements with equal
    keys keep their relative order, also under [reverse=True].  A stable
    sort has one possible result ([sort_desc_unique] below), so insertion
    from the right stands for the library's merge sort. *)

Section DescendingSort.

Context {K A : Type}.
Variable ltb : K -> K -> bool.

(** [x] stood before every element of [l]: it passes the elements with a
    strictly greater key and stops in front of the first other one. *)
Fixpoint insert_desc (x : K * A) (l : list (K * A)) : list (K * A) :=
  match l with
  | [] => [x]
  | y :: l' => if ltb (fst x) (fst y) then y :: insert_desc x l' else x :: l
  end.

Fixpoint sort_desc (l : list (K * A)) : list (K * A) :=
  match l with
  | [] => []
  | x :: l' => insert_desc x (sort_desc l')
  end.

Definition sorted_desc (key : A -> result K) (l : list A) : result (list A) :=
  keys ← map_result key l;
  Ok (map snd (sort_desc (combine keys l))).

End DescendingSort.

(** ** JSON values

    The student profile arrives as a JSON object whose values are not typed
    by the request model ([student_profile: Optional[Dict]]). *)

#[local] Set Warnings "-register-all".

Inductive json : Type :=
| JNull
| JBool (b : bool)
| JNum (q : Q)
| JStr (s : string)
| JArr (l : list json)
| JObj (l : list (string * json)).

(** Python's truth value of a JSON value, as [not v] and [if v] test it. *)
Definition truthy (v : json) : bool :=
  match v with
  | JNull => false
  | JBool b => b
  | JNum q => negb (Qeq_bool q 0)
  | JStr s => negb (String.eqb s "")
  | JArr l => match l with [] => false | _ => true end
  | JObj l => match l with [] => false | _ => true end
  end.

(** [d.get(key)]: [None] when the key is absent. *)
Definition dict_get (d : gmap string json) (key : string) : json :=
  match d !! key with
  | Some v => v
  | None => JNull
  end.

(** [v >= n] for a number [n]: booleans compare as 0 and 1, the other
    non-numeric values raise [TypeError]. *)
Definition json_ge (v : json) (n : Q) : result bool :=
  match v with
  | JNum q => Ok (Qgeb q n)
  | JBool b => Ok (Qgeb (if b then 1 else 0) n)
  | _ => Raise TypeError
  end.

(** ** The waiver calculator *)

Module Waiver.

(** A row of the [programs] table, with the two columns the calculator's
    query reads. *)
Record Program : Type := {
  code : string;
  department_code : string
}.

(** [waiver["waiver_rate"]]: one percentage string or a list of them. *)
Inductive rate : Type :=
| RateStr (r : string)
| RateList (rs : list string).

(** An entry of [data/waivers.json]. *)
Record WaiverRule : Type := {
  id : string;
  name : string;
  category : string;
  description : string;
  waiver_rate : rate;
  eligibility_criteria : list string;
  required_documents : list string;
  deadline : string;
  applicable_programs : list string;
  sgpa_required : Q
}.

(** An element of the returned list. *)
Record WaiverOutput : Type := {
  o_id : string;
  o_name : string;
  o_category : string;
  o_description : string;
  o_waiver_percentage : string;
  o_eligibility_criteria : list string;
  o_required_documents : list string;
  o_deadline : string;
  o_applicable_programs : list string;
  o_sgpa_required : Q
}.

(** [x in l] for a list of strings. *)
Definition mem (x : string) (l : list string) : bool := existsb (String.eqb x) l.

(** [SELECT code FROM programs WHERE department_code = ?] *)
Definition program_codes (programs : list Program) (faculty : string) : list string :=
  map code (List.filter (fun p => String.eqb (department_code p) faculty) programs).

(** [max(l)] for a list of integers; the empty list raises [ValueError]. *)
Definition max_list (l : list Z) : result Z :=
  match l with
  | [] => Raise ValueError
  | x :: l' => Ok (fold_left Z.max l' x)
  end.

(** The parsing of [waiver_rate]. *)
Definition waiver_percentage (r : rate) : result Z :=
  match r with
  | RateList rs =>
      ps ← map_result (fun r => Py.int (Py.strip "%" r)) rs;
      max_list ps
  | RateStr r => Py.int (Py.strip "%" r)
  end.

(** The second operand of the family-income test:
    [not student_profile.get("family_income")
     or student_profile["family_income"] >= 50000].
    The subscript is reached only when the value is truthy, so the key is
    present there. *)
Definition income_fails (student_profile : gmap string json) : result bool :=
  if negb (truthy (dict_get student_profile "family_income"))
  then Ok true
  else json_ge (dict_get student_profile "family_income") 50000.

(** [current_sgpa < waiver["sgpa_required"]]; [None < x] raises. *)
Definition sgpa_below (current_sgpa : option Q) (required : Q) : result bool :=
  match current_sgpa with
  | Some s => Ok (Qltb s required)
  | None => Raise TypeError
  end.

Section Eligibility.

Variables (ssc_gpa hsc_gpa : Q) (is_new_student : bool) (current_sgpa : option Q).
Variable student_profile : gmap string json.

(** The block "Check eligibility": [meets_criteria] starts true and each
    [if] may clear it.  Only the family-income and the SGPA tests can
    raise, and they are evaluated whatever the flag holds. *)
Definition meets_criteria (waiver : WaiverRule) : result bool :=
  let criteria := eligibility_criteria waiver in
  let meets := true in
  let meets := if mem "SSC GPA 5.0" criteria && Qltb ssc_gpa 5 then false else meets in
  let meets := if mem "HSC GPA 5.0" criteria && Qltb hsc_gpa 5 then false else meets in
  let meets :=
    if mem "HSC GPA 4.90-4.99" criteria
       && (Qltb hsc_gpa 4.90 || Qgtb hsc_gpa 4.99)
    then false else meets in
  income ←
    (if mem "Family income below 50,000 BDT/month" criteria
     then income_fails student_profile else Ok false);
  let meets := if (income : bool) then false else meets in
  let meets :=
    if mem "Child of freedom fighter" criteria
       && negb (truthy (dict_get student_profile "is_freedom_fighter_child"))
    then false else meets in
  let meets :=
    if mem "DIU employee or immediate relative" criteria
       && negb (truthy (dict_get student_profile "is_diu_employee_relative"))
    then false else meets in
  let meets :=
    if mem "National or premier division sports achievement" criteria
       && negb (truthy (dict_get student_profile "has_sports_achievement"))
    then false else meets in
  let meets :=
    if mem "Diploma in relevant field" criteria
       && negb (truthy (dict_get student_profile "has_diploma"))
    then false else meets in
  let meets :=
    if mem "Group admission of 5 or more students" criteria
       && negb (truthy (dict_get student_profile "group_admission"))
    then false else meets in
  let meets :=
    if mem "International student status" criteria
       && negb (truthy (dict_get student_profile "is_international_student"))
    then false else meets in
  sgpa ←
    (if Qgtb (sgpa_required waiver) 0 && negb is_new_student
     then sgpa_below current_sgpa (sgpa_required waiver) else Ok false);
  let meets := if (sgpa : bool) then false else meets in
  Ok meets.

(** The dictionary appended to [eligible]. *)
Definition output (waiver : WaiverRule) (percentage : Z) : WaiverOutput :=
  {| o_id := id waiver;
     o_name := name waiver;
     o_category := category waiver;
     o_description := description waiver;
     o_waiver_percentage := Py.str percentage +:+ "%";
     o_eligibility_criteria := eligibility_criteria waiver;
     o_required_documents := required_documents waiver;
     o_deadline := deadline waiver;
     o_applicable_programs := applicable_programs waiver;
     o_sgpa_required := sgpa_required waiver |}.

(** One turn of the loop over [self.waiver_data]: [Ok None] when the
    rule is skipped or does not qualify, [Ok (Some o)] when [o] is
    appended. *)
Definition evaluate (codes : list string) (waiver : WaiverRule) : result (option WaiverOutput) :=
  if negb (existsb (fun c => mem c (applicable_programs waiver)) codes)
  then Ok None
  else
    percentage ← waiver_percentage (waiver_rate waiver);
    meets ← meets_criteria waiver;
    Ok (if (meets : bool) then Some (output waiver percentage) else None).

(** The loop: [eligible] in the order of the table. *)
Fixpoint eligible (codes : list string) (waiver_data : list WaiverRule) : result (list WaiverOutput) :=
  match waiver_data with
  | [] => Ok []
  | waiver :: rest =>
      o ← evaluate codes waiver;
      os ← eligible codes rest;
      Ok (match o with Some o => o :: os | None => os end)
  end.

End Eligibility.

(** The sort key of an element of the result:
    [int(x["waiver_percentage"].strip("%"))]. *)
Definition percentage_key (o : WaiverOutput) : result Z :=
  Py.int (Py.strip "%" (o_waiver_percentage o)).

(** [DIUWaiverCalculator.calculate_waivers], with the two tables it reads
    ([self.waiver_data] and the [programs] table) as arguments.
    [student_profile = None] stands for the empty dictionary. *)
Definition calculate_waivers
    (waiver_data : list WaiverRule) (programs : list Program)
    (faculty : string) (ssc_gpa hsc_gpa : Q) (is_new_student : bool)
    (current_sgpa : option Q) (student_profile : option (gmap string json))
    : result (list WaiverOutput) :=
  let student_profile := default ∅ student_profile in
  el ← eligible ssc_gpa hsc_gpa is_new_student current_sgpa student_profile
         (program_codes programs faculty) waiver_data;
  sorted_desc Z.ltb percentage_key el.

End Waiver.

(** ** The department recommender *)

Module Recommender.

#[local] Open Scope Q_scope.

(** A row of the [departments] table, [programs] already decoded. *)
Record Department : Type := {
  id : Z;
  name : string;
  code : string;
  contact : string;
  head : string;
  description : string;
  programs : list string;
  faculty : string;
  location : string;
  website : string;
  established_year : Z;
  student_capacity : Z;
  accreditation : string
}.

Record RecommendationInput : Type := {
  interests : list string;
  academic_background : string;
  career_goals : list string;
  ssc_gpa : option Q;
  hsc_gpa : option Q
}.

(** The ["department"] entry of a recommendation. *)
Record DepartmentView : Type := {
  v_name : string;
  v_description : string;
  v_programs : list string;
  v_faculty : string;
  v_contact : string;
  v_website : string
}.

Record Recommendation : Type := {
  department : DepartmentView;
  match_score : Q;
  reasons : list string
}.

(** The truth value of an optional number: [None] and zero are false. *)
Definition truthy_number (x : option Q) : bool :=
  match x with
  | Some q => negb (Qeq_bool q 0)
  | None => false
  end.

(** [(input.ssc_gpa + input.hsc_gpa) / 2 if input.ssc_gpa and input.hsc_gpa else 0] *)
Definition avg_gpa (input : RecommendationInput) : Q :=
  match ssc_gpa input, hsc_gpa input with
  | Some s, Some h => if truthy_number (Some s) && truthy_number (Some h) then (s + h) / 2 else 0
  | _, _ => 0
  end.

(** The text of a department given to the vectorizer. *)
Definition document (d : Department) : string :=
  description d +:+ " " +:+ Py.join " " (programs d) +:+ " " +:+ faculty d.

Definition user_text (input : RecommendationInput) : string :=
  Py.join " " (interests input) +:+ " " +:+ academic_background input
    +:+ " " +:+ Py.join " " (career_goals input).

(** The condition of the loop over [input.interests]. *)
Definition interest_matches (dept : Department) (interest : string) : bool :=
  Py.contains (Py.lower interest) (Py.lower (description dept))
  || Py.contains (Py.lower interest) (Py.lower (Py.join " " (programs dept))).

(** The condition of the loop over [input.career_goals]. *)
Definition goal_matches (dept : Department) (goal : string) : bool :=
  Py.contains (Py.lower goal) (Py.lower (description dept)).

(** [keyword_boost] after the two loops. *)
Definition keyword_boost (input : RecommendationInput) (dept : Department) : Q :=
  let keyword_boost := 0 in
  let keyword_boost :=
    fold_left (fun kb interest => if interest_matches dept interest then kb + 0.1 else kb)
              (interests input) keyword_boost in
  let keyword_boost :=
    fold_left (fun kb goal => if goal_matches dept goal then kb + 0.1 else kb)
              (career_goals input) keyword_boost in
  keyword_boost.

(** The list [reasons] of a recommended department. *)
Definition reasons_for (input : RecommendationInput) (dept : Department) : list string :=
  let matching_interests := List.filter (interest_matches dept) (interests input) in
  let matching_goals := List.filter (goal_matches dept) (career_goals input) in
  let reasons :=
    ((match matching_interests with
      | [] => []
      | _ => ["Matches interests: " +:+ Py.join ", " matching_interests]
      end)
     ++ (match matching_goals with
         | [] => []
         | _ => ["Aligns with goals: " +:+ Py.join ", " matching_goals]
         end))%list in
  match reasons with
  | [] => ["General match based on profile"]
  | _ => reasons
  end.

Definition view (dept : Department) : DepartmentView :=
  {| v_name := name dept;
     v_description := description dept;
     v_programs := programs dept;
     v_faculty := faculty dept;
     v_contact := contact dept;
     v_website := website dept |}.

(** The dictionary appended to [recommendations]. *)
Definition recommendation (input : RecommendationInput) (dept : Department) (total_score : Q)
    : Recommendation :=
  {| department := view dept;
     match_score := total_score;
     reasons := reasons_for input dept |}.

(** [similarities[i]] *)
Definition index (similarities : list Q) (i : nat) : result Q :=
  match nth_error similarities i with
  | Some x => Ok x
  | None => Raise IndexError
  end.

(** [total_score] of the department at position [i]. *)
Definition total_score (similarities : list Q) (input : RecommendationInput)
    (i : nat) (dept : Department) : result Q :=
  base_score ← index similarities i;
  Ok (base_score + keyword_boost input dept).

(** The loop [for i, dept in enumerate(departments)], from position [i]. *)
Fixpoint candidates (similarities : list Q) (input : RecommendationInput)
    (i : nat) (departments : list Department) : result (list Recommendation) :=
  match departments with
  | [] => Ok []
  | dept :: rest =>
      total ← total_score similarities input i dept;
      recs ← candidates similarities input (S i) rest;
      Ok (if Qgtb total 0.2 then recommendation input dept total :: recs else recs)
  end.

Section Engine.

(** [tfidf_cosine user_text documents] stands for the row
    [cosine_similarity(vectorizer.transform([user_text]),
    vectorizer.fit_transform(documents)).flatten()] of the vectorizer
    configured in the source; it raises when the documents hold no
    term. *)
Variable tfidf_cosine : string -> list string -> result (list Q).

(** [recommend_programs], with the [departments] table as argument. *)
Definition recommend_programs (departments : list Department) (input : RecommendationInput)
    : result (list Recommendation) :=
  let documents := map document departments in
  similarities ← tfidf_cosine (user_text input) documents;
  let avg_gpa := avg_gpa input in
  recommendations ← candidates similarities input 0 departments;
  recommendations ← sorted_desc Qltb (fun r => Ok (match_score r)) recommendations;
  Ok (firstn 5 recommendations).

End Engine.

End Recommender.

(** ** The FAQ matcher *)

Module Chat.

#[local] Open Scope Q_scope.

(** A row of the [faqs] table, with the three columns the matcher reads;
    [keywords] may be NULL. *)
Record FAQ : Type := {
  question : string;
  answer : string;
  keywords : option string
}.

Record ChatInput : Type := {
  message : string;
  session_id : string
}.

Definition fallback : string :=
  "Sorry, I couldn't find an answer to your question. Please try rephrasing or contact support.".

(** [max(a, b)]: the first argument unless the second is greater. *)
Definition max2 (a b : Q) : Q := if Qltb a b then b else a.

(** [max(l)]; the empty list raises [ValueError]. *)
Definition max_list (l : list Q) : result Q :=
  match l with
  | [] => Raise ValueError
  | x :: l' => Ok (fold_left max2 l' x)
  end.

Section Matcher.

(** [ratio a b] stands for [difflib.SequenceMatcher(None, a, b).ratio()]. *)
Variable ratio : string -> string -> Q.

Definition similarity (message : string) (faq : FAQ) : Q :=
  ratio (Py.lower message) (Py.lower (question faq)).

Definition keyword_similarity (message : string) (faq : FAQ) : result Q :=
  match keywords faq with
  | None => Ok 0
  | Some kws =>
      if String.eqb kws ""
      then Ok 0
      else max_list (map (fun kw => ratio (Py.lower message) (Py.lower kw))
                         (Py.split ", " kws))
  end.

Definition total_similarity (message : string) (faq : FAQ) : result Q :=
  keyword_similarity ← keyword_similarity message faq;
  Ok (max2 (similarity message faq) keyword_similarity).

(** The loop over [faqs], from the state [(best_match, highest_similarity)]. *)
Fixpoint scan (message : string) (faqs : list FAQ) (state : option string * Q)
    : result (option string * Q) :=
  match faqs with
  | [] => Ok state
  | faq :: rest =>
      total ← total_similarity message faq;
      scan message rest
        (if Qgtb total (snd state) then (Some (answer faq), total) else state)
  end.

(** [chat_with_bot], with the [faqs] table as argument; the result is
    the value of ["response"], [None] standing for Python's [None]. *)
Definition chat_with_bot (faqs : list FAQ) (input : ChatInput) : result (option string) :=
  '(best_match, highest_similarity) ← scan (message input) faqs (None, 0);
  if Qgtb highest_similarity 0.4
  then Ok best_match
  else Ok (Some fallback).

End Matcher.

End Chat.

(** ** Stand-ins for the two library computations

    The theorems below hold for every [tfidf_cosine] and for every [ratio]
    with the stated properties.  Concrete examples need concrete functions:
    a cosine that coincides with the library's on the inputs the examples
    use, and a ratio with the two properties assumed of the library's. *)

Module StandIn.

#[local] Open Scope Q_scope.

(** The words of a text: in lower case, separated by spaces, at least two
    characters long.  (The vectorizer also splits at punctuation and drops
    English stop words; the examples use texts without either.) *)
Definition terms (text : string) : list string :=
  List.filter (fun t => (2 <=? String.length t)%nat) (Py.split " " (Py.lower text)).

Definition shares_term (text document : string) : bool :=
  existsb (fun t => Waiver.mem t (terms document)) (terms text).

(** Similarity 1 with the documents that share a word with the query and
    0 with the others; [ValueError] when no document holds a word.  This is
    the value of the TF-IDF cosine when no word of the query occurs in a
    document (every similarity is 0) and when the corpus is one document
    made of one word (the vector space has one dimension). *)
Definition presence_cosine (user_text : string) (documents : list string) : result (list Q) :=
  if forallb (fun d => match terms d with [] => true | _ => false end) documents
  then Raise ValueError
  else Ok (map (fun d => if shares_term user_text d then 1 else 0) documents).

(** The length of the longest common prefix. *)
Fixpoint common_prefix (a b : string) : nat :=
  match a, b with
  | String x a', String y b' => if Ascii.eqb x y then S (common_prefix a' b') else O
  | _, _ => O
  end.

(** [2 * M / T] with the common prefix as the only matching block, and 1
    for two empty strings.  Like the library's ratio it is 1 on equal
    strings and never above 1; on other strings it can be smaller than the
    library's, which looks for matching blocks everywhere. *)
Definition prefix_ratio (a b : string) : Q :=
  let total := (String.length a + String.length b)%nat in
  match total with
  | O => 1
  | _ => inject_Z (Z.of_nat (2 * common_prefix a b)) / inject_Z (Z.of_nat total)
  end.

End StandIn.

(** ** Regular expressions, as [re.match] reads and runs them

    [validate_email] and [validate_phone] call [re.match] with a pattern
    written in the source.  The pattern is kept as the string it is and goes
    through a parser that follows the library's own ([sre_parse]) on the
    syntax it covers: literals, [.], [^], [$], escapes of punctuation,
    [\d \w \s] and their negations, character sets with ranges, groups
    [( )] and [(?: )], alternation, and the quantifiers [* + ?] and
    [{m} {m,} {,n} {m,n}], greedy or lazy.  Anything else is reported as
    outside the model. *)

Module Re.

Inductive category : Type :=
| Digit   (* \d *)
| Word    (* \w *)
| Space.  (* \s *)

Inductive set_item : Type :=
| Char (c : ascii)
| Range (lo hi : ascii)
| Category (negated : bool) (k : category).

Inductive regex : Type :=
| Empty
| Lit (c : ascii)
| Dot
| OneOf (negated : bool) (items : list set_item)
| Cat (r1 r2 : regex)
| Alt (r1 r2 : regex)
| Repeat (min : nat) (max : option nat) (r : regex)
| Bol   (* ^ *)
| Eol.  (* $ *)

(** The outcome of reading a pattern: its syntax tree, the library's
    [re.error], or a pattern outside the syntax modelled here. *)
Inductive parsed (A : Type) : Type :=
| Parsed (a : A)
| PatternError
| Outside.

Arguments Parsed {A} a.
Arguments PatternError {A}.
Arguments Outside {A}.

Definition and_then {A B : Type} (p : parsed A) (k : A -> parsed B) : parsed B :=
  match p with
  | Parsed a => k a
  | PatternError => PatternError
  | Outside => Outside
  end.

Definition is_letter (c : ascii) : bool :=
  let n := nat_of_ascii c in
  ((65 <=? n) && (n <=? 90) || (97 <=? n) && (n <=? 122))%nat.

(** The escape [\c], in a set or outside: a category for [d w s D W S], the
    character itself for punctuation; the other letters and the digits have
    meanings of their own, which are not modelled. *)
Definition escape (c : ascii) : parsed set_item :=
  if Ascii.eqb c "d" then Parsed (Category false Digit)
  else if Ascii.eqb c "w" then Parsed (Category false Word)
  else if Ascii.eqb c "s" then Parsed (Category false Space)
  else if Ascii.eqb c "D" then Parsed (Category true Digit)
  else if Ascii.eqb c "W" then Parsed (Category true Word)
  else if Ascii.eqb c "S" then Parsed (Category true Space)
  else if is_letter c || Py.is_digit c then Outside
  else Parsed (Char c).

(** One member of a set: a character or an escape.  The rest of the
    pattern comes back with it. *)
Definition set_member (s : string) : parsed (set_item * string) :=
  match s with
  | EmptyString => PatternError   (* unterminated character set *)
  | String c s' =>
      if Ascii.eqb c "\"
      then match s' with
           | EmptyString => PatternError   (* bad escape (end of pattern) *)
           | String e s'' => and_then (escape e) (fun i => Parsed (i, s''))
           end
      else Parsed (Char c, s')
  end.

(** The members of a set, after [[] and the optional [^].  [items] holds
    the members read so far, last first.  A first []] is a member; after a
    member, [-] announces a range unless []] follows it; both ends of a
    range must be characters ("bad character range" otherwise) and in
    order. *)
Fixpoint set_items (fuel : nat) (items : list set_item) (s : string)
    : parsed (list set_item * string) :=
  match fuel with
  | O => Outside
  | S fuel' =>
      match s, items with
      | String "]" s', _ :: _ => Parsed (rev items, s')
      | _, _ =>
          and_then (set_member s) (fun '(first, s1) =>
            match s1 with
            | String "-" s2 =>
                match s2 with
                | EmptyString => PatternError
                | String "]" s3 => Parsed (rev (Char "-" :: first :: items), s3)
                | _ =>
                    and_then (set_member s2) (fun '(last, s3) =>
                      match first, last with
                      | Char lo, Char hi =>
                          if Ascii.ltb hi lo then PatternError
                          else set_items fuel' (Range lo hi :: items) s3
                      | _, _ => PatternError   (* bad character range *)
                      end)
                end
            | _ => set_items fuel' (first :: items) s1
            end)
      end
  end.

(** A run of decimal digits, and the rest. *)
Fixpoint number (s : string) : string * string :=
  match s with
  | String c s' =>
      if Py.is_digit c then let '(ds, rest) := number s' in (String c ds, rest)
      else (EmptyString, s)
  | EmptyString => (EmptyString, s)
  end.

Definition count (ds : string) : option nat :=
  match NilEmpty.uint_of_string ds with
  | Some d => Some (Nat.of_uint d)
  | None => None
  end.

(** What follows [{]: [None] when the brace is an ordinary character. *)
Definition braces (s : string) : option (parsed (nat * option nat * string)) :=
  match s with
  | String "}" _ => None
  | _ =>
      let '(lo, s1) := number s in
      let '(hi, comma, s2) :=
        match s1 with
        | String "," s1' => let '(hi, s2) := number s1' in (hi, true, s2)
        | _ => (lo, false, s1)
        end in
      match s2 with
      | String "}" s3 =>
          let min := match lo with EmptyString => Some 0 | _ => count lo end in
          let max := match hi with EmptyString => None | _ => count hi end in
          match min, hi, max with
          | Some m, EmptyString, _ => Some (Parsed (m, None, s3))
          | Some m, _, Some n =>
              if (n <? m)%nat then Some PatternError   (* min repeat greater than max repeat *)
              else Some (Parsed (m, Some n, s3))
          | _, _, _ => Some Outside
          end
      | _ => None
      end
  end.

(** The quantifier at the head of [s], if there is one. *)
Definition quantifier (s : string) : option (parsed (nat * option nat * string)) :=
  match s with
  | String "*" s' => Some (Parsed (0, None, s'))
  | String "+" s' => Some (Parsed (1, None, s'))
  | String "?" s' => Some (Parsed (0, Some 1, s'))
  | String "{" s' => braces s'
  | _ => None
  end.

(** An item with the quantifier that follows it: [?] after a quantifier
    makes it lazy, which accepts the same strings; a possessive [+] is
    outside the model; a quantifier on a quantified item, on [^] or on [$]
    is an error. *)
Definition quantified (anchor : bool) (r : regex) (s : string) : parsed (regex * string) :=
  match quantifier s with
  | None => Parsed (r, s)
  | Some q =>
      and_then q (fun '(min, max, s1) =>
        if anchor then PatternError   (* nothing to repeat *)
        else
          let s2 := match s1 with String "?" s' => s' | _ => s1 end in
          match s1 with
          | String "+" _ => Outside
          | _ =>
              match quantifier s2 with
              | Some _ => PatternError   (* multiple repeat *)
              | None => Parsed (Repeat min max r, s2)
              end
          end)
  end.

(** A sequence of items up to [|], [)] or the end, and an alternation of
    sequences up to [)] or the end. *)
Fixpoint sequence (fuel : nat) (s : string) : parsed (regex * string) :=
  match fuel with
  | O => Outside
  | S fuel' =>
      let item (anchor : bool) (r : regex) (s1 : string) :=
        and_then (quantified anchor r s1) (fun '(r1, s2) =>
          and_then (sequence fuel' s2) (fun '(r2, s3) => Parsed (Cat r1 r2, s3))) in
      match s with
      | EmptyString => Parsed (Empty, s)
      | String c s' =>
          if Ascii.eqb c "|" || Ascii.eqb c ")" then Parsed (Empty, s)
          else if Ascii.eqb c "(" then
            let group (s1 : string) :=
              and_then (alternation fuel' s1) (fun '(r, s2) =>
                match s2 with
                | String ")" s3 => item false r s3
                | _ => PatternError   (* missing ) *)
                end) in
            match s' with
            | String "?" (String ":" s1) => group s1
            | String "?" _ => Outside
            | _ => group s'
            end
          else if Ascii.eqb c "[" then
            let '(negated, s1) :=
              match s' with
              | String "^" s1 => (true, s1)
              | _ => (false, s')
              end in
            and_then (set_items (S (String.length s1)) [] s1) (fun '(items, s2) =>
              item false (OneOf negated items) s2)
          else if Ascii.eqb c "\" then
            match s' with
            | EmptyString => PatternError
            | String e s1 =>
                and_then (escape e) (fun i =>
                  item false (match i with Char d => Lit d | _ => OneOf false [i] end) s1)
            end
          else if Ascii.eqb c "." then item false Dot s'
          else if Ascii.eqb c "^" then item true Bol s'
          else if Ascii.eqb c "$" then item true Eol s'
          else
            match quantifier s with
            | Some (Parsed _) | Some PatternError => PatternError   (* nothing to repeat *)
            | Some Outside => Outside
            | None => item false (Lit c) s'
            end
      end
  end
with alternation (fuel : nat) (s : string) : parsed (regex * string) :=
  match fuel with
  | O => Outside
  | S fuel' =>
      and_then (sequence fuel' s) (fun '(r1, s1) =>
        match s1 with
        | String "|" s2 =>
            and_then (alternation fuel' s2) (fun '(r2, s3) => Parsed (Alt r1 r2, s3))
        | _ => Parsed (r1, s1)
        end)
  end.

(** [re.compile(pattern)] *)
Definition compile (pattern : string) : parsed regex :=
  and_then (alternation (2 * String.length pattern + 2) pattern) (fun '(r, rest) =>
    match rest with
    | EmptyString => Parsed r
    | _ => PatternError   (* unbalanced parenthesis *)
    end).

(** *** Matching *)

Definition in_category (k : category) (c : ascii) : bool :=
  match k with
  | Digit => Py.is_digit c
  | Word => is_letter c || Py.is_digit c || Ascii.eqb c "_"
  | Space => Py.mem_char c Py.whitespace
  end.

Definition in_item (c : ascii) (i : set_item) : bool :=
  match i with
  | Char d => Ascii.eqb c d
  | Range lo hi => Ascii.leb lo c && Ascii.leb c hi
  | Category negated k => xorb negated (in_category k c)
  end.

(** The texts left after at least [min] and at most [max] more rounds of
    [step], from the texts [current]. *)
Fixpoint rounds (step : list ascii -> list (list ascii)) (min max : nat)
    (current : list (list ascii)) : list (list ascii) :=
  (match min with O => current | S _ => [] end)
  ++ match max with
     | O => []
     | S max' => rounds step (pred min) max' (flat_map step current)
     end.

(** [run r n s]: every text that can be left when [r] has matched a
    prefix of [s]; [n] is the length of the whole subject, which tells [^]
    where the start is.  [$] holds at the end and before a final line
    feed. *)
Fixpoint run (r : regex) (n : nat) (s : list ascii) : list (list ascii) :=
  match r with
  | Empty => [s]
  | Lit c =>
      match s with
      | d :: s' => if Ascii.eqb c d then [s'] else []
      | [] => []
      end
  | Dot =>
      match s with
      | d :: s' => if Ascii.eqb d "010" then [] else [s']
      | [] => []
      end
  | OneOf negated items =>
      match s with
      | d :: s' => if xorb negated (existsb (in_item d) items) then [s'] else []
      | [] => []
      end
  | Cat r1 r2 => flat_map (run r2 n) (run r1 n s)
  | Alt r1 r2 => run r1 n s ++ run r2 n s
  | Repeat min max r' =>
      rounds (run r' n) min
             (match max with Some m => m | None => min + length s end) [s]
  | Bol => if (length s =? n)%nat then [s] else []
  | Eol =>
      match s with
      | [] | ["010"%char] => [s]
      | _ => []
      end
  end.

(** The exceptions of the web layer. *)
Inductive raised : Type :=
| ReError                                    (* re.error *)
| HTTPException (status : Z) (detail : string)
| NotModelled.

Inductive outcome (A : Type) : Type :=
| Return (a : A)
| Throw (e : raised).

Arguments Return {A} a.
Arguments Throw {A} e.

(** [bool(re.match(pattern, s))] *)
Definition matches (pattern s : string) : outcome bool :=
  match compile pattern with
  | Parsed r =>
      let subject := list_ascii_of_string s in
      Return (match run r (length subject) subject with [] => false | _ => true end)
  | PatternError => Throw ReError
  | Outside => Throw NotModelled
  end.

End Re.

(** ** The validators and the application endpoint *)

Module Validators.

(** ["".join(filter(keep, s))] *)
Fixpoint keep_chars (keep : ascii -> bool) (s : string) : string :=
  match s with
  | EmptyString => EmptyString
  | String c s' => if keep c then String c (keep_chars keep s') else keep_chars keep s'
  end.

Definition email_pattern : string := "^[\w-\.]+@([\w-]+\.)+[\w-]{2,4}$".

Definition phone_pattern : string := "^(?:\+880|880|0)?1[3-9]\d{8}$".

Definition validate_email (email : string) : Re.outcome bool :=
  Re.matches email_pattern email.

Definition validate_phone (phone : string) : Re.outcome bool :=
  Re.matches phone_pattern phone.

Definition validate_nid (nid : string) : bool :=
  let nid := keep_chars Py.is_digit nid in
  (10 <=? String.length nid)%nat.

End Validators.

Module Application.

Import Re Validators.

(** The request body of [/applications]. *)
Record ApplicationInput : Type := {
  student_name : string;
  email : string;
  phone : string;
  dob : string;
  father_name : string;
  mother_name : string;
  nid : string;
  gender : string;
  program_code : string;
  ssc_gpa : option Q;
  hsc_gpa : option Q;
  ssc_year : Z;
  hsc_year : Z;
  ssc_board : string;
  hsc_board : string;
  ssc_group : string;
  hsc_group : string;
  family_income : option Q;
  is_freedom_fighter_child : bool;
  is_diu_employee_relative : bool;
  has_sports_achievement : bool;
  has_diploma : bool;
  is_international_student : bool;
  group_admission : bool;
  documents_submitted : list string
}.

(** A row of the [applications] table: its [id], the values of the
    request with the documents as JSON text, the status and the time of
    submission. *)
Record ApplicationRow : Type := {
  row_id : Z;
  row_input : ApplicationInput;
  row_documents : string;
  application_status : string;
  submitted_at : string
}.

(** The part of the database the endpoint touches.  [sequence] is the
    largest [id] the [applications] table has ever given out
    ([AUTOINCREMENT]). *)
Record Database : Type := {
  programs : list Waiver.Program;
  applications : list ApplicationRow;
  sequence : Z
}.

(** The dictionary the endpoint returns. *)
Record Receipt : Type := {
  receipt_id : Z;
  receipt_student_name : string;
  receipt_program_code : string;
  receipt_status : string
}.

Section Endpoint.

(** [datetime.now()] and [json.dumps] of a list of strings. *)
Variable now : string.
Variable json_dumps : list string -> string.

(** The statements after the validation: the program is looked up, the
    row is inserted with the next [id], and the receipt is built. *)
Definition store_application (db : Database) (input : ApplicationInput)
    : Database * outcome Receipt :=
  if existsb (fun p => String.eqb (Waiver.code p) (program_code input)) (programs db)
  then
    let app_id :=
      (Z.max (sequence db) (fold_right Z.max 0 (map row_id (applications db))) + 1)%Z in
    let row :=
      {| row_id := app_id;
         row_input := input;
         row_documents := json_dumps (documents_submitted input);
         application_status := "pending";
         submitted_at := now |} in
    ({| programs := programs db;
        applications := applications db ++ [row];
        sequence := app_id |},
     Return {| receipt_id := app_id;
               receipt_student_name := student_name input;
               receipt_program_code := program_code input;
               receipt_status := "pending" |})
  else (db, Throw (HTTPException 404 "Program not found")).

(** [submit_application]: the three validators are called from left to
    right, each only when the ones before it accepted. *)
Definition submit_application (db : Database) (input : ApplicationInput)
    : Database * outcome Receipt :=
  match validate_email (email input) with
  | Throw e => (db, Throw e)
  | Return false => (db, Throw (HTTPException 400 "Invalid input data"))
  | Return true =>
      match validate_phone (phone input) with
      | Throw e => (db, Throw e)
      | Return false => (db, Throw (HTTPException 400 "Invalid input data"))
      | Return true =>
          if negb (validate_nid (nid input))
          then (db, Throw (HTTPException 400 "Invalid input data"))
          else store_application db input
      end
  end.

End Endpoint.

End Application.

(** ** The migration of the [programs] table in [init_db] *)

Module Schema.

(** A column: its name and its declaration. *)
Definition column : Type := string * string.

(** [CREATE TABLE IF NOT EXISTS programs ( ... )] *)
Definition programs_columns : list column :=
  [ ("id", "INTEGER PRIMARY KEY");
    ("name", "TEXT");
    ("code", "TEXT UNIQUE");
    ("department_code", "TEXT");
    ("total_cost", "REAL");
    ("credits", "INTEGER");
    ("duration", "REAL");
    ("description", "TEXT");
    ("eligibility", "TEXT");
    ("career_prospects", "TEXT");
    ("admission_deadline", "TEXT");
    ("program_type", "TEXT");
    ("accreditation", "TEXT") ].

(** The dictionary [required_columns], in the order it is written. *)
Definition required_columns : list column :=
  [ ("department_code", "TEXT");
    ("eligibility", "TEXT");
    ("career_prospects", "TEXT");
    ("admission_deadline", "TEXT");
    ("program_type", "TEXT");
    ("accreditation", "TEXT") ].

(** The table after [CREATE TABLE IF NOT EXISTS]: an existing table is
    left as it is. *)
Definition create_programs (table : option (list column)) : list column :=
  match table with
  | Some columns => columns
  | None => programs_columns
  end.

Inductive altered : Type :=
| Altered (columns : list column)
| OperationalError (message : string).

(** SQLite compares column names without regard to case. *)
Definition same_name (a b : string) : bool := String.eqb (Py.lower a) (Py.lower b).

(** [ALTER TABLE programs ADD COLUMN name type]: the column is added after
    the others; a name the table already has is an error. *)
Definition add_column (columns : list column) (c : column) : altered :=
  if existsb (fun x => same_name (fst x) (fst c)) columns
  then OperationalError ("duplicate column name: " +:+ fst c)
  else Altered (columns ++ [c])%list.

(** The loop over [required_columns.items()]; [existing_columns] was read
    before the loop. *)
Fixpoint add_missing (existing_columns : list string) (required : list column)
    (columns : list column) : altered :=
  match required with
  | [] => Altered columns
  | c :: rest =>
      if Waiver.mem (fst c) existing_columns
      then add_missing existing_columns rest columns
      else
        match add_column columns c with
        | Altered columns' => add_missing existing_columns rest columns'
        | OperationalError message => OperationalError message
        end
  end.

(** The part of [init_db] that concerns the [programs] table; [table] is
    the table found in the database, if any. *)
Definition migrate_programs (table : option (list column)) : altered :=
  let columns := create_programs table in
  let existing_columns := map fst columns in
  add_missing existing_columns required_columns columns.

End Schema.

(** * Properties *)

(** ** Boolean comparisons of rationals *)

Lemma Qltb_lt (x y : Q) : Qltb x y = true <-> (x < y)%Q.
Proof.
  unfold Qltb. rewrite negb_true_iff, <- not_true_iff_false, Qle_bool_iff.
  split; [apply Qnot_le_lt | apply Qlt_not_le].
Qed.

Lemma Qltb_ge (x y : Q) : Qltb x y = false <-> (y <= x)%Q.
Proof. unfold Qltb. rewrite negb_false_iff. apply Qle_bool_iff. Qed.

Lemma Qgtb_gt (x y : Q) : Qgtb x y = true <-> (y < x)%Q.
Proof. apply Qltb_lt. Qed.

(** ** Strings: [int(str(n) + "%" stripped)] is [n] *)

Module PyFacts.

Import Py.

Fixpoint all_chars (P : ascii -> bool) (s : string) : bool :=
  match s with
  | EmptyString => true
  | String c s' => P c && all_chars P s'
  end.

Lemma lstrip_head chars c s :
  mem_char c chars = false -> lstrip chars (String c s) = String c s.
Proof. intros H. simpl. now rewrite H. Qed.

Lemma lstrip_keeps chars P s :
  (forall c, P c = true -> mem_char c chars = false) ->
  all_chars P s = true -> lstrip chars s = s.
Proof.
  intros HP. destruct s as [|c s]; [reflexivity|]. simpl all_chars.
  intros [Hc _]%andb_true_iff. apply lstrip_head, HP, Hc.
Qed.

Lemma rstrip_keeps chars P s :
  (forall c, P c = true -> mem_char c chars = false) ->
  all_chars P s = true -> rstrip chars s = s.
Proof.
  intros HP. induction s as [|c s IH]; simpl; [reflexivity|].
  intros [Hc Hs]%andb_true_iff. rewrite (IH Hs), (HP c Hc).
  now destruct s.
Qed.

Lemma rstrip_app_percent s : rstrip "%" (s +:+ "%") = rstrip "%" s.
Proof.
  induction s as [|c s IH]; simpl; [reflexivity|].
  change (String.app s "%") with (s +:+ "%"). now rewrite IH.
Qed.

Lemma digits_of_digits s prev :
  all_chars is_digit s = true -> (s <> EmptyString \/ prev = true) ->
  digits prev s = Some s.
Proof.
  revert prev. induction s as [|c s IH]; simpl; intros prev Hs Hne.
  - destruct Hne as [Hne | ->]; [congruence | reflexivity].
  - apply andb_true_iff in Hs as [Hc Hs]. rewrite Hc.
    rewrite (IH true Hs) by now right. reflexivity.
Qed.

Lemma uint_digits d : all_chars is_digit (NilEmpty.string_of_uint d) = true.
Proof. induction d; simpl; auto. Qed.

Lemma uint_nonempty d : d <> Decimal.Nil -> NilEmpty.string_of_uint d <> EmptyString.
Proof. destruct d; simpl; congruence. Qed.

Lemma digit_not_sign c :
  is_digit c = true ->
  Ascii.eqb c "-" = false /\ Ascii.eqb c "+" = false
  /\ mem_char c whitespace = false /\ mem_char c "%" = false.
Proof.
  destruct c as [[] [] [] [] [] [] [] []]; vm_compute; intros H;
    first [discriminate H | repeat split].
Qed.

Definition is_number_char (c : ascii) : bool := is_digit c || Ascii.eqb c "-".

Lemma number_char_kept c :
  is_number_char c = true ->
  mem_char c whitespace = false /\ mem_char c "%" = false.
Proof.
  destruct c as [[] [] [] [] [] [] [] []]; vm_compute; intros H;
    first [discriminate H | repeat split].
Qed.

Lemma int_number_chars d :
  all_chars is_number_char (NilEmpty.string_of_int d) = true.
Proof.
  assert (Hu : forall u, all_chars is_number_char (NilEmpty.string_of_uint u) = true).
  { induction u; simpl; auto. }
  destruct d; simpl; auto.
Qed.

(** [int] reads back what [string_of_int] printed, when there is a digit. *)
Lemma int_string_of_int d :
  (match d with Decimal.Pos u | Decimal.Neg u => u <> Decimal.Nil end) ->
  int (NilEmpty.string_of_int d) = Ok (Z.of_int d).
Proof.
  intros Hd. unfold int, strip.
  rewrite (lstrip_keeps _ is_number_char), (rstrip_keeps _ is_number_char);
    try apply int_number_chars; try (intros c Hc; now apply number_char_kept).
  destruct d as [u | u]; simpl.
  - destruct (NilEmpty.string_of_uint u) as [|c s] eqn:E.
    + now apply uint_nonempty in E.
    + pose proof (uint_digits u) as Hall. rewrite E in Hall.
      pose proof Hall as Hall'. simpl in Hall'. apply andb_true_iff in Hall' as [Hc _].
      destruct (digit_not_sign c Hc) as (-> & -> & _).
      rewrite digits_of_digits by (auto; left; congruence).
      rewrite <- E, NilEmpty.usu. reflexivity.
  - rewrite digits_of_digits by (auto using uint_digits; left; now apply uint_nonempty).
    rewrite NilEmpty.usu. reflexivity.
Qed.

Lemma int_str n : int (str n) = Ok n.
Proof.
  unfold str. rewrite int_string_of_int.
  - now rewrite DecimalZ.of_to.
  - destruct n; simpl; try congruence; apply DecimalPos.Unsigned.to_uint_nonnil.
Qed.

Lemma strip_percent_str n : strip "%" (str n +:+ "%") = str n.
Proof.
  unfold strip.
  assert (Hn : all_chars is_number_char (str n) = true) by apply int_number_chars.
  assert (Hne : str n <> EmptyString).
  { unfold str. destruct n; simpl; try congruence;
      try (apply uint_nonempty, DecimalPos.Unsigned.to_uint_nonnil). }
  destruct (str n) as [|c s] eqn:E; [congruence|].
  pose proof Hn as Hn'. simpl in Hn'. apply andb_true_iff in Hn' as [Hc _].
  change (String c s +:+ "%") with (String c (s +:+ "%")).
  rewrite lstrip_head by apply (number_char_kept c Hc).
  change (String c (s +:+ "%")) with (String c s +:+ "%").
  rewrite rstrip_app_percent.
  apply (rstrip_keeps _ is_number_char); auto.
  intros c' Hc'. now apply number_char_kept.
Qed.

(** The round trip of the percentage through its printed form. *)
Lemma int_strip_percent_str n : int (strip "%" (str n +:+ "%")) = Ok n.
Proof. now rewrite strip_percent_str, int_str. Qed.

End PyFacts.

(** ** The result monad *)

Lemma bind_Ok {A B : Type} (r : result A) (k : A -> result B) (b : B) :
  (r ≫= k) = Ok b -> exists a, r = Ok a /\ k a = Ok b.
Proof. destruct r as [a | e]; simpl; [eauto | discriminate]. Qed.

Ltac inv_bind H :=
  let a := fresh "a" in
  let Ha := fresh "H" a in
  apply bind_Ok in H as (a & Ha & H).

Lemma map_result_Ok_length {A B : Type} (f : A -> result B) l ys :
  map_result f l = Ok ys -> length ys = length l.
Proof.
  revert ys. induction l as [|x l IH]; simpl; intros ys H.
  - now inversion H.
  - inv_bind H. inv_bind H. inversion H; subst. simpl. f_equal. eauto.
Qed.

Lemma map_result_Ok_combine {A B : Type} (f : A -> result B) l ys :
  map_result f l = Ok ys -> Forall (fun p => f (snd p) = Ok (fst p)) (combine ys l).
Proof.
  revert ys. induction l as [|x l IH]; simpl; intros ys H.
  - inversion H. constructor.
  - inv_bind H. inv_bind H. inversion H; subst. simpl. constructor; eauto.
Qed.

Lemma map_result_total {A B : Type} (f : A -> result B) l :
  Forall (fun x => exists y, f x = Ok y) l -> exists ys, map_result f l = Ok ys.
Proof.
  induction 1 as [|x l [y Hy] _ [ys Hys]]; simpl; [eauto|].
  rewrite Hy. simpl. rewrite Hys. simpl. eauto.
Qed.

Lemma map_result_of_pairs {A B : Type} (f : A -> result B) (ps : list (B * A)) :
  Forall (fun p => f (snd p) = Ok (fst p)) ps ->
  map_result f (map snd ps) = Ok (map fst ps).
Proof.
  induction 1 as [|p ps Hp _ IH]; simpl; [reflexivity|].
  rewrite Hp. simpl. rewrite IH. reflexivity.
Qed.

(** ** The stable descending sort *)

Section DescendingSortFacts.

Context {K A : Type}.
Variable ltb : K -> K -> bool.

(** [x] may stand before [y]: its key is not smaller. *)
Definition not_below (x y : K * A) : Prop := ltb (fst x) (fst y) = false.

Hypothesis ltb_asym : forall a b, ltb a b = true -> ltb b a = false.
Hypothesis ltb_cotrans : forall a b c, ltb a b = false -> ltb b c = false -> ltb a c = false.

Lemma insert_desc_perm (x : K * A) l : Permutation (x :: l) (insert_desc ltb x l).
Proof.
  induction l as [|y l IH]; simpl; [reflexivity|].
  destruct (ltb (fst x) (fst y)); [|reflexivity].
  rewrite perm_swap. now apply perm_skip.
Qed.

Lemma sort_desc_perm (l : list (K * A)) : Permutation l (sort_desc ltb l).
Proof.
  induction l as [|x l IH]; simpl; [reflexivity|].
  rewrite <- insert_desc_perm. now apply perm_skip.
Qed.

Lemma insert_desc_sorted (x : K * A) l :
  StronglySorted not_below l -> StronglySorted not_below (insert_desc ltb x l).
Proof.
  induction 1 as [|y l Hl IH Hy]; simpl.
  - repeat constructor.
  - destruct (ltb (fst x) (fst y)) eqn:E.
    + constructor; [exact IH|].
      rewrite <- insert_desc_perm. constructor; [|exact Hy].
      now apply ltb_asym.
    + constructor; [now constructor|].
      constructor; [exact E|].
      eapply List.Forall_impl; [|exact Hy]. intros z Hz. unfold not_below in *. eauto.
Qed.

Lemma sort_desc_sorted (l : list (K * A)) : StronglySorted not_below (sort_desc ltb l).
Proof.
  induction l as [|x l IH]; simpl; [constructor | now apply insert_desc_sorted].
Qed.

(** Stability: a class of elements none of which is below another keeps
    its order. *)
Lemma insert_desc_filter (p : K * A -> bool) (x : K * A) l :
  (p x = true -> forall y, In y l -> p y = true -> not_below x y) ->
  List.filter p (insert_desc ltb x l) = List.filter p (x :: l).
Proof.
  induction l as [|y l IH]; intros H; [reflexivity|]. simpl insert_desc.
  destruct (ltb (fst x) (fst y)) eqn:E; [|reflexivity].
  simpl. simpl in IH. rewrite IH by (intros Hx z Hz; apply H; simpl; auto).
  destruct (p x) eqn:Hx, (p y) eqn:Hy; try reflexivity.
  specialize (H eq_refl y (or_introl eq_refl) Hy). unfold not_below in H. congruence.
Qed.

Lemma sort_desc_filter (p : K * A -> bool) (l : list (K * A)) :
  (forall x y, In x l -> In y l -> p x = true -> p y = true -> not_below x y) ->
  List.filter p (sort_desc ltb l) = List.filter p l.
Proof.
  induction l as [|x l IH]; intros H; [reflexivity|]. simpl sort_desc.
  rewrite insert_desc_filter.
  - simpl. rewrite IH; [reflexivity|]. intros y z Hy Hz. apply H; simpl; auto.
  - intros Hx y Hy. apply H; simpl; auto.
    right. eapply Permutation_in; [symmetry; apply sort_desc_perm | exact Hy].
Qed.

(** The elements whose key is neither below nor above [k]. *)
Definition same_key (k : K) (x : K * A) : bool :=
  negb (ltb (fst x) k) && negb (ltb k (fst x)).

Lemma ltb_irrefl a : ltb a a = false.
Proof. destruct (ltb a a) eqn:E; [|reflexivity]. now rewrite (ltb_asym _ _ E) in E. Qed.

Lemma same_key_self x : same_key (fst x) x = true.
Proof. unfold same_key. now rewrite ltb_irrefl. Qed.

Lemma filter_head_In (p : K * A -> bool) x l l' :
  List.filter p l = x :: l' -> In x l /\ p x = true.
Proof.
  intros H. apply filter_In. rewrite H. now left.
Qed.

(** Two lists in descending order that agree on every class of equal keys
    are equal: the order of the keys and the order inside the classes leave
    no choice.  Insertion from the right is therefore the stable sort. *)
Lemma sorted_stable_unique (l1 : list (K * A)) : forall l2,
  StronglySorted not_below l1 ->
  StronglySorted not_below l2 ->
  (forall k, List.filter (same_key k) l1 = List.filter (same_key k) l2) ->
  l1 = l2.
Proof.
  induction l1 as [|x l1 IH]; intros l2 H1 H2 Hf.
  - destruct l2 as [|y l2]; [reflexivity|].
    specialize (Hf (fst y)). simpl in Hf. rewrite same_key_self in Hf. discriminate Hf.
  - destruct l2 as [|y l2].
    { specialize (Hf (fst x)). simpl in Hf. rewrite same_key_self in Hf. discriminate Hf. }
    apply StronglySorted_inv in H1 as [H1 Hx], H2 as [H2 Hy].
    rewrite List.Forall_forall in Hx, Hy.
    assert (Hxy : x = y).
    { pose proof (Hf (fst x)) as Hfx. pose proof (Hf (fst y)) as Hfy.
      simpl in Hfx, Hfy. rewrite same_key_self in Hfx, Hfy.
      destruct (same_key (fst x) y) eqn:Exy; [now inversion Hfx|].
      destruct (same_key (fst y) x) eqn:Eyx; [now inversion Hfy|].
      symmetry in Hfx. apply filter_head_In in Hfx as [Hxin _].
      apply filter_head_In in Hfy as [Hyin _].
      specialize (Hy x Hxin). specialize (Hx y Hyin).
      unfold not_below in Hx, Hy. unfold same_key in Exy. now rewrite Hx, Hy in Exy. }
    subst y. f_equal. apply IH; auto.
    intros k. specialize (Hf k). simpl in Hf.
    destruct (same_key k x); [now inversion Hf | exact Hf].
Qed.

Lemma sort_desc_unique (l out : list (K * A)) :
  StronglySorted not_below out ->
  (forall k, List.filter (same_key k) out = List.filter (same_key k) l) ->
  out = sort_desc ltb l.
Proof.
  intros Hs Hf. apply sorted_stable_unique; [exact Hs | apply sort_desc_sorted |].
  intros k. rewrite Hf. symmetry. apply sort_desc_filter.
  intros x y _ _ Hx Hy. unfold same_key in Hx, Hy.
  apply andb_true_iff in Hx as [Hx1 Hx2], Hy as [Hy1 Hy2].
  apply negb_true_iff in Hx1, Hx2, Hy1, Hy2.
  unfold not_below. eapply ltb_cotrans; eassumption.
Qed.

Variable key : A -> result K.

Lemma sorted_desc_inv l out :
  sorted_desc ltb key l = Ok out ->
  exists keys, map_result key l = Ok keys
               /\ out = map snd (sort_desc ltb (combine keys l)).
Proof.
  unfold sorted_desc. intros H. inv_bind H. inversion H. eauto.
Qed.

Lemma sorted_desc_total l :
  Forall (fun x => exists k, key x = Ok k) l -> exists out, sorted_desc ltb key l = Ok out.
Proof.
  intros H. apply map_result_total in H as [keys H].
  unfold sorted_desc. rewrite H. simpl. eauto.
Qed.

Lemma snd_combine (keys : list K) (l : list A) :
  length keys = length l -> map snd (combine keys l) = l.
Proof.
  revert l. induction keys as [|k keys IH]; destruct l; simpl; intros H;
    try discriminate; [reflexivity|]. f_equal. apply IH. lia.
Qed.

Lemma sorted_desc_perm l out : sorted_desc ltb key l = Ok out -> Permutation l out.
Proof.
  intros (keys & Hk & ->)%sorted_desc_inv.
  rewrite <- (snd_combine keys l) at 1 by eauto using map_result_Ok_length.
  apply Permutation_map, sort_desc_perm.
Qed.

(** The keys of the result, in order, never increase. *)
Lemma sorted_desc_keys l out :
  sorted_desc ltb key l = Ok out ->
  exists ks, map_result key out = Ok ks
             /\ StronglySorted (fun a b => ltb a b = false) ks.
Proof.
  intros (keys & Hk & ->)%sorted_desc_inv.
  exists (map fst (sort_desc ltb (combine keys l))). split.
  - apply map_result_of_pairs.
    eapply Permutation_Forall; [apply sort_desc_perm|].
    now apply map_result_Ok_combine.
  - pose proof (sort_desc_sorted (combine keys l)) as Hs.
    induction Hs as [|x xs _ IH Hx]; simpl; constructor; [exact IH|].
    rewrite Forall_map. exact Hx.
Qed.

Lemma filter_snd (p : A -> bool) (ps : list (K * A)) :
  List.filter p (map snd ps) = map snd (List.filter (fun q => p (snd q)) ps).
Proof.
  induction ps as [|q ps IH]; simpl; [reflexivity|].
  destruct (p (snd q)); simpl; now rewrite IH.
Qed.

(** Elements of one class, none with a key below another's, come out in the
    order they went in. *)
Lemma sorted_desc_stable (p : A -> bool) l out :
  (forall x y kx ky, p x = true -> p y = true ->
                     key x = Ok kx -> key y = Ok ky -> ltb kx ky = false) ->
  sorted_desc ltb key l = Ok out ->
  List.filter p out = List.filter p l.
Proof.
  intros Hp (keys & Hk & ->)%sorted_desc_inv.
  pose proof (map_result_Ok_combine _ _ _ Hk) as Hall.
  rewrite List.Forall_forall in Hall.
  rewrite filter_snd, sort_desc_filter.
  - rewrite <- filter_snd, snd_combine by eauto using map_result_Ok_length. reflexivity.
  - intros x y Hx Hy Hpx Hpy. unfold not_below.
    apply (Hp (snd x) (snd y)); auto.
Qed.

End DescendingSortFacts.

Lemma sort_desc_map_snd {K A B : Type} (ltb : K -> K -> bool) (f : A -> B) (l : list (K * A)) :
  sort_desc ltb (map (fun p => (fst p, f (snd p))) l)
  = map (fun p => (fst p, f (snd p))) (sort_desc ltb l).
Proof.
  assert (Hins : forall x l',
    insert_desc ltb (fst x, f (snd x)) (map (fun p => (fst p, f (snd p))) l')
    = map (fun p => (fst p, f (snd p))) (insert_desc ltb x l')).
  { intros x l'. induction l' as [|y l' IH]; simpl; [reflexivity|].
    destruct (ltb (fst x) (fst y)); simpl; [now rewrite IH | reflexivity]. }
  induction l as [|x l IH]; simpl; [reflexivity|]. now rewrite IH, Hins.
Qed.

(** Sorting commutes with a change of the elements that keeps their keys. *)
Lemma sorted_desc_map {K A : Type} (ltb : K -> K -> bool) (key : A -> result K)
    (f : A -> A) (l : list A) :
  (forall x, key (f x) = key x) ->
  sorted_desc ltb key (map f l) = (map f <$> sorted_desc ltb key l).
Proof.
  intros Hkey. unfold sorted_desc.
  assert (Hk : map_result key (map f l) = map_result key l).
  { induction l as [|x l IH]; simpl; [reflexivity|]. now rewrite Hkey, IH. }
  rewrite Hk. destruct (map_result key l) as [keys | e]; [|reflexivity]. simpl.
  f_equal.
  assert (Hc : combine keys (map f l) = map (fun p => (fst p, f (snd p))) (combine keys l)).
  { clear Hk. revert keys. induction l as [|x l IH]; intros [|k keys]; simpl;
      try reflexivity. now rewrite IH. }
  rewrite Hc, sort_desc_map_snd, !map_map. reflexivity.
Qed.

(** ** The waiver calculator *)

Module WaiverProofs.

Import Waiver.

(** The ten criterion tags [calculate_waivers] tests for. *)
Definition recognised_tags : list string :=
  [ "SSC GPA 5.0";
    "HSC GPA 5.0";
    "HSC GPA 4.90-4.99";
    "Family income below 50,000 BDT/month";
    "Child of freedom fighter";
    "DIU employee or immediate relative";
    "National or premier division sports achievement";
    "Diploma in relevant field";
    "Group admission of 5 or more students";
    "International student status" ].

(** The profile keys the boolean criteria read. *)
Definition boolean_keys : list string :=
  [ "is_freedom_fighter_child";
    "is_diu_employee_relative";
    "has_sports_achievement";
    "has_diploma";
    "group_admission";
    "is_international_student" ].

Definition with_criteria (criteria : list string) (w : WaiverRule) : WaiverRule :=
  {| id := id w;
     name := name w;
     category := category w;
     description := description w;
     waiver_rate := waiver_rate w;
     eligibility_criteria := criteria;
     required_documents := required_documents w;
     deadline := deadline w;
     applicable_programs := applicable_programs w;
     sgpa_required := sgpa_required w |}.

(** The rule, and the output element, without the tags the calculator
    does not know. *)
Definition known (criteria : list string) : list string :=
  List.filter (fun t => mem t recognised_tags) criteria.

Definition forget_unknown (w : WaiverRule) : WaiverRule :=
  with_criteria (known (eligibility_criteria w)) w.

Definition forget_unknown_out (o : WaiverOutput) : WaiverOutput :=
  {| o_id := o_id o;
     o_name := o_name o;
     o_category := o_category o;
     o_description := o_description o;
     o_waiver_percentage := o_waiver_percentage o;
     o_eligibility_criteria := known (o_eligibility_criteria o);
     o_required_documents := o_required_documents o;
     o_deadline := o_deadline o;
     o_applicable_programs := o_applicable_programs o;
     o_sgpa_required := o_sgpa_required o |}.

(** The elements of a result with percentage [v]. *)
Definition has_percentage (v : Z) (o : WaiverOutput) : bool :=
  match percentage_key o with
  | Ok p => Z.eqb p v
  | Raise _ => false
  end.

Lemma mem_In x l : mem x l = true <-> In x l.
Proof.
  unfold mem. rewrite existsb_exists. split.
  - intros (y & Hy & ->%String.eqb_eq). exact Hy.
  - intros H. exists x. split; [exact H | apply String.eqb_refl].
Qed.

Lemma mem_known t criteria :
  In t recognised_tags -> mem t (known criteria) = mem t criteria.
Proof.
  intros Ht. apply eq_true_iff_eq. rewrite !mem_In. unfold known.
  rewrite filter_In, mem_In. tauto.
Qed.

Lemma percentage_key_output w p : percentage_key (output w p) = Ok p.
Proof. apply PyFacts.int_strip_percent_str. Qed.

Lemma Zltb_asym a b : Z.ltb a b = true -> Z.ltb b a = false.
Proof. rewrite Z.ltb_lt, Z.ltb_ge. lia. Qed.

Lemma Zltb_cotrans a b c : Z.ltb a b = false -> Z.ltb b c = false -> Z.ltb a c = false.
Proof. rewrite !Z.ltb_ge. lia. Qed.

Section Calculator.

Variables (ssc_gpa hsc_gpa : Q) (is_new_student : bool) (current_sgpa : option Q).
Variable student_profile : gmap string json.
Variable codes : list string.

#[local] Abbreviation evaluate := (evaluate ssc_gpa hsc_gpa is_new_student current_sgpa student_profile).
#[local] Abbreviation eligible := (eligible ssc_gpa hsc_gpa is_new_student current_sgpa student_profile).
#[local] Abbreviation meets_criteria :=
  (meets_criteria ssc_gpa hsc_gpa is_new_student current_sgpa student_profile).

(** The rule is appended with percentage [v]. *)
Definition qualifies_with (v : Z) (w : WaiverRule) : bool :=
  match evaluate codes w with
  | Ok (Some o) => has_percentage v o
  | _ => false
  end.

Lemma evaluate_Some w o :
  evaluate codes w = Ok (Some o) ->
  exists p, waiver_percentage (waiver_rate w) = Ok p
            /\ meets_criteria w = Ok true
            /\ o = output w p.
Proof.
  unfold Waiver.evaluate.
  destruct (negb _); [discriminate|]. intros H.
  inv_bind H. inv_bind H. destruct a0; inversion H; subst. eauto.
Qed.

Lemma eligible_keys ws el :
  eligible codes ws = Ok el -> Forall (fun o => exists p, percentage_key o = Ok p) el.
Proof.
  revert el. induction ws as [|w ws IH]; simpl; intros el H.
  - inversion H. constructor.
  - inv_bind H. inv_bind H. inversion H; subst.
    destruct a as [o|]; [|eauto]. constructor; [|eauto].
    apply evaluate_Some in Ha as (p & _ & _ & ->). eauto using percentage_key_output.
Qed.

(** The elements appended with percentage [v], in the order of the table. *)
Lemma eligible_with ws el v :
  eligible codes ws = Ok el ->
  List.filter (has_percentage v) el
  = map (fun w => output w v) (List.filter (qualifies_with v) ws).
Proof.
  revert el. induction ws as [|w ws IH]; simpl; intros el H.
  - now inversion H.
  - inv_bind H. inv_bind H. inversion H; subst. clear H.
    unfold qualifies_with at 1. rewrite Ha.
    destruct a as [o|]; [|eauto]. simpl.
    destruct (has_percentage v o) eqn:E; simpl; rewrite (IH _ Ha0); [|reflexivity].
    f_equal. apply evaluate_Some in Ha as (p & _ & _ & ->).
    unfold has_percentage in E. rewrite percentage_key_output in E.
    apply Z.eqb_eq in E. now subst.
Qed.

End Calculator.

(** The sort at the end of [calculate_waivers] cannot raise: every element
    of [eligible] carries a percentage the calculator printed itself. *)
Lemma calculate_waivers_returns waiver_data programs faculty ssc_gpa hsc_gpa
    is_new_student current_sgpa student_profile el :
  eligible ssc_gpa hsc_gpa is_new_student current_sgpa (default ∅ student_profile)
           (program_codes programs faculty) waiver_data = Ok el ->
  exists out,
    calculate_waivers waiver_data programs faculty ssc_gpa hsc_gpa is_new_student
                      current_sgpa student_profile = Ok out.
Proof.
  intros H. unfold calculate_waivers. rewrite H. simpl.
  eapply sorted_desc_total, eligible_keys, H.
Qed.

(** The calculator returns a list whenever every applicable rule has a
    well-formed rate, the family income is absent, null, a boolean or a
    number, and the current SGPA is given. *)
Lemma calculate_waivers_total waiver_data programs faculty ssc_gpa hsc_gpa
    is_new_student sgpa (student_profile : gmap string json) :
  Forall (fun w => exists p, waiver_percentage (waiver_rate w) = Ok p) waiver_data ->
  (match dict_get student_profile "family_income" with
   | JNull | JBool _ | JNum _ => True
   | _ => False
   end) ->
  exists out,
    calculate_waivers waiver_data programs faculty ssc_gpa hsc_gpa is_new_student
                      (Some sgpa) (Some student_profile) = Ok out.
Proof.
  intros Hrates Hincome.
  assert (Hmeets : forall w,
    exists m, meets_criteria ssc_gpa hsc_gpa is_new_student (Some sgpa) student_profile w
              = Ok m).
  { intros w. unfold meets_criteria, income_fails, sgpa_below.
    destruct (mem "Family income below 50,000 BDT/month" _); simpl;
      [destruct (dict_get student_profile "family_income") as [| [] | q | | |];
       try contradiction; simpl; try destruct (negb (negb _)); simpl|];
      destruct (Qgtb (sgpa_required w) 0 && negb is_new_student); simpl; eauto. }
  assert (Hel : exists el,
    eligible ssc_gpa hsc_gpa is_new_student (Some sgpa) student_profile
             (program_codes programs faculty) waiver_data = Ok el).
  { induction Hrates as [|w ws [p Hp] _ [el IH]]; simpl; [eauto|].
    unfold evaluate. rewrite Hp. destruct (Hmeets w) as [m ->]. rewrite IH.
    destruct (negb _); simpl; eauto. }
  destruct Hel as [el Hel]. eapply calculate_waivers_returns. exact Hel.
Qed.

(** C5. The list [calculate_waivers] returns is sorted by percentage, in
    descending order, and for every percentage [v] its elements with that
    percentage are those of the rules of the table that qualify with [v],
    in the order of the table (the sort is stable). *)
Theorem C5_sorted_descending_stable waiver_data programs faculty ssc_gpa hsc_gpa
    is_new_student current_sgpa student_profile out :
  calculate_waivers waiver_data programs faculty ssc_gpa hsc_gpa is_new_student
                    current_sgpa student_profile = Ok out ->
  (exists ps, map_result percentage_key out = Ok ps
              /\ StronglySorted (fun a b => (a >= b)%Z) ps)
  /\ forall v,
      List.filter (has_percentage v) out
      = map (fun w => output w v)
            (List.filter
               (qualifies_with ssc_gpa hsc_gpa is_new_student current_sgpa
                               (default ∅ student_profile)
                               (program_codes programs faculty) v)
               waiver_data).
Proof.
  unfold calculate_waivers. intros H. inv_bind H. split.
  - destruct (sorted_desc_keys Z.ltb Zltb_asym Zltb_cotrans _ _ _ H) as (ps & Hps & Hs).
    exists ps. split; [exact Hps|].
    clear Hps. induction Hs as [|p ps _ IH Hp]; constructor; [exact IH|].
    eapply List.Forall_impl; [|exact Hp]. intros q Hq. apply Z.ltb_ge in Hq. lia.
  - intros v. rewrite <- (eligible_with _ _ _ _ _ _ _ _ v Ha).
    eapply sorted_desc_stable; [|exact H].
    intros x y kx ky Hx Hy Ex Ey. unfold has_percentage in Hx, Hy.
    rewrite Ex in Hx. rewrite Ey in Hy.
    apply Z.eqb_eq in Hx, Hy. subst. apply Z.ltb_irrefl.
Qed.

(** A table with one rule whose only criterion is not a recognised tag, the
    programs of one department, and the rule's output element. *)
Definition left_handed_rule : WaiverRule :=
  {| id := "W9";
     name := "Left-handed applicants";
     category := "Special";
     description := "Waiver for left-handed applicants";
     waiver_rate := RateStr "15%";
     eligibility_criteria := ["Left-handed applicant"];
     required_documents := [];
     deadline := "2025-12-31";
     applicable_programs := ["BSC-CSE"];
     sgpa_required := 0 |}.

Definition cse_programs : list Program :=
  [ {| code := "BSC-CSE"; department_code := "CSE" |};
    {| code := "MSC-CSE"; department_code := "CSE" |};
    {| code := "BBA"; department_code := "BUS" |} ].

(** C1, refuted. The rule [left_handed_rule] carries a tag that is not one
    of the ten recognised tags, and a student with an empty profile gets it:
    the calculator returns the rule's element. *)
Lemma C1_counterexample :
  mem "Left-handed applicant" recognised_tags = false
  /\ calculate_waivers [left_handed_rule] cse_programs "CSE" 4 4 true (Some 0%Q) None
     = Ok [output left_handed_rule 15].
Proof. split; vm_compute; reflexivity. Qed.

Lemma meets_criteria_forget_unknown ssc_gpa hsc_gpa is_new_student current_sgpa
    student_profile w :
  meets_criteria ssc_gpa hsc_gpa is_new_student current_sgpa student_profile (forget_unknown w)
  = meets_criteria ssc_gpa hsc_gpa is_new_student current_sgpa student_profile w.
Proof.
  unfold meets_criteria. cbn [forget_unknown with_criteria eligibility_criteria sgpa_required].
  rewrite !mem_known by (unfold recognised_tags; simpl; tauto).
  reflexivity.
Qed.

Lemma evaluate_forget_unknown ssc_gpa hsc_gpa is_new_student current_sgpa
    student_profile codes w :
  evaluate ssc_gpa hsc_gpa is_new_student current_sgpa student_profile codes (forget_unknown w)
  = (fmap (M:=option) forget_unknown_out
       <$> evaluate ssc_gpa hsc_gpa is_new_student current_sgpa student_profile codes w).
Proof.
  unfold evaluate. rewrite meets_criteria_forget_unknown.
  cbn [forget_unknown with_criteria applicable_programs waiver_rate].
  destruct (negb _); [reflexivity|].
  destruct (waiver_percentage (waiver_rate w)) as [p|]; [|reflexivity]. simpl.
  destruct (meets_criteria _ _ _ _ _ w) as [[]|]; reflexivity.
Qed.

Lemma eligible_forget_unknown ssc_gpa hsc_gpa is_new_student current_sgpa
    student_profile codes ws :
  eligible ssc_gpa hsc_gpa is_new_student current_sgpa student_profile codes
           (map forget_unknown ws)
  = (map forget_unknown_out
       <$> eligible ssc_gpa hsc_gpa is_new_student current_sgpa student_profile codes ws).
Proof.
  induction ws as [|w ws IH]; simpl; [reflexivity|].
  rewrite evaluate_forget_unknown, IH.
  destruct (evaluate _ _ _ _ _ codes w) as [[o|]|]; simpl; try reflexivity;
    destruct (eligible _ _ _ _ _ codes ws); reflexivity.
Qed.

(** C1, as the code has it. A criterion tag that is not one of the ten
    recognised tags is ignored: removing the unrecognised tags from every
    rule of the table changes nothing in the result but the tags its
    elements repeat.  A rule therefore appears in the result exactly when
    its recognised tags, its programs and its SGPA requirement let it. *)
Theorem C1_unrecognised_tags_ignored waiver_data programs faculty ssc_gpa hsc_gpa
    is_new_student current_sgpa student_profile :
  calculate_waivers (map forget_unknown waiver_data) programs faculty ssc_gpa hsc_gpa
                    is_new_student current_sgpa student_profile
  = (map forget_unknown_out
       <$> calculate_waivers waiver_data programs faculty ssc_gpa hsc_gpa
                             is_new_student current_sgpa student_profile).
Proof.
  unfold calculate_waivers. rewrite eligible_forget_unknown.
  destruct (eligible _ _ _ _ _ _ waiver_data) as [el|]; [|reflexivity]. simpl.
  apply sorted_desc_map. reflexivity.
Qed.

(** *** The family-income criterion *)

Definition income_rule : WaiverRule :=
  {| id := "W4";
     name := "Need-based waiver";
     category := "Financial";
     description := "Waiver for low-income families";
     waiver_rate := RateStr "30%";
     eligibility_criteria := ["Family income below 50,000 BDT/month"];
     required_documents := ["Income certificate"];
     deadline := "2025-12-31";
     applicable_programs := ["BSC-CSE"];
     sgpa_required := 0 |}.

(** What the test of the family income lets pass: a number that is not
    zero and is below 50000, or the boolean [True] (which compares as 1). *)
Lemma income_passes_iff (student_profile : gmap string json) :
  income_fails student_profile = Ok false
  <-> (exists q, student_profile !! "family_income" = Some (JNum q)
                 /\ ~ (q == 0)%Q /\ (q < 50000)%Q)
      \/ student_profile !! "family_income" = Some (JBool true).
Proof.
  unfold income_fails, dict_get.
  destruct (student_profile !! "family_income") as [[| [] | q | s | l | l]|] eqn:E; simpl.
  - split; [discriminate | intros [(q & [=] & _) | [=]]].
  - split; [now right | reflexivity].
  - split; [discriminate | intros [(q & [=] & _) | [=]]].
  - destruct (Qeq_bool q 0) eqn:E0; simpl.
    + split; [discriminate|]. intros [(q' & [= <-] & Hq & _) | [=]].
      apply Qeq_bool_iff in E0. contradiction.
    + split.
      * intros [= H]. left. exists q. split; [reflexivity|]. split.
        -- intros Hq. apply Qeq_bool_iff in Hq. rewrite Hq in E0. discriminate E0.
        -- apply Qnot_le_lt. intros Hle. apply Qle_bool_iff in Hle.
           unfold Qgeb in H. rewrite Hle in H. discriminate H.
      * intros [(q' & [= <-] & _ & Hlt) | [=]]. f_equal. unfold Qgeb.
        apply not_true_iff_false. rewrite Qle_bool_iff. now apply Qlt_not_le.
  - split; [|intros [(q & [=] & _) | [=]]].
    destruct (negb (negb (String.eqb s ""))); discriminate.
  - split; [|intros [(q & [=] & _) | [=]]]. destruct l; discriminate.
  - split; [|intros [(q & [=] & _) | [=]]]. destruct l; discriminate.
  - split; [discriminate | intros [(q & [=] & _) | [=]]].
Qed.

(** C4, at the input where the code departs from it. A family income of 0
    is present and below 50000, yet the criterion fails and the rule is
    left out, because [not student_profile.get("family_income")] is true for
    the number 0; with an income of 1 the same rule is returned. *)
Theorem C4_zero_income_rejected :
  income_fails {[ "family_income" := JNum 0 ]} = Ok true
  /\ calculate_waivers [income_rule] cse_programs "CSE" 4 4 true (Some 0%Q)
                       (Some {[ "family_income" := JNum 0 ]})
     = Ok []
  /\ calculate_waivers [income_rule] cse_programs "CSE" 4 4 true (Some 0%Q)
                       (Some {[ "family_income" := JNum 1 ]})
     = Ok [output income_rule 30].
Proof. repeat split; vm_compute; reflexivity. Qed.

(** *** Boolean profile attributes *)

(** The calculator reads the profile through the value of
    ["family_income"] and the truth values of the six boolean keys. *)
Lemma meets_criteria_profile ssc_gpa hsc_gpa is_new_student current_sgpa
    (p1 p2 : gmap string json) w :
  dict_get p1 "family_income" = dict_get p2 "family_income" ->
  Forall (fun k => truthy (dict_get p1 k) = truthy (dict_get p2 k)) boolean_keys ->
  meets_criteria ssc_gpa hsc_gpa is_new_student current_sgpa p1 w
  = meets_criteria ssc_gpa hsc_gpa is_new_student current_sgpa p2 w.
Proof.
  intros Hincome Hkeys. unfold boolean_keys in Hkeys.
  repeat match goal with
         | H : Forall _ (_ :: _) |- _ => apply List.Forall_cons_iff in H as [? H]
         end.
  unfold meets_criteria, income_fails. rewrite Hincome.
  repeat match goal with
         | H : truthy _ = truthy _ |- _ => rewrite H; clear H
         end.
  reflexivity.
Qed.

Lemma calculate_waivers_profile waiver_data programs faculty ssc_gpa hsc_gpa
    is_new_student current_sgpa (p1 p2 : gmap string json) :
  dict_get p1 "family_income" = dict_get p2 "family_income" ->
  Forall (fun k => truthy (dict_get p1 k) = truthy (dict_get p2 k)) boolean_keys ->
  calculate_waivers waiver_data programs faculty ssc_gpa hsc_gpa is_new_student
                    current_sgpa (Some p1)
  = calculate_waivers waiver_data programs faculty ssc_gpa hsc_gpa is_new_student
                      current_sgpa (Some p2).
Proof.
  intros Hincome Hkeys. unfold calculate_waivers. simpl default. f_equal.
  induction waiver_data as [|w ws IH]; simpl; [reflexivity|].
  rewrite IH. unfold evaluate.
  now rewrite (meets_criteria_profile _ _ _ _ p1 p2 w Hincome Hkeys).
Qed.

(** C9. For each of the six boolean keys, a profile without the key and
    the same profile with the key set to [False] get the same result. *)
Theorem C9_absent_key_as_false waiver_data programs faculty ssc_gpa hsc_gpa
    is_new_student current_sgpa (student_profile : gmap string json) (k : string) :
  In k boolean_keys ->
  student_profile !! k = None ->
  calculate_waivers waiver_data programs faculty ssc_gpa hsc_gpa is_new_student
                    current_sgpa (Some student_profile)
  = calculate_waivers waiver_data programs faculty ssc_gpa hsc_gpa is_new_student
                      current_sgpa (Some (<[k := JBool false]> student_profile)).
Proof.
  intros Hk Habsent. apply calculate_waivers_profile.
  - unfold dict_get. rewrite lookup_insert_ne; [reflexivity|].
    intros ->. unfold boolean_keys in Hk. simpl in Hk.
    repeat destruct Hk as [Hk | Hk]; try discriminate Hk; contradiction.
  - apply List.Forall_forall. intros k' _. unfold dict_get.
    destruct (decide (k = k')) as [<- | Hne].
    + now rewrite lookup_insert_eq, Habsent.
    + now rewrite lookup_insert_ne.
Qed.

Definition diploma_rule : WaiverRule :=
  {| id := "W7";
     name := "Diploma holders";
     category := "Academic";
     description := "Waiver for diploma holders";
     waiver_rate := RateList ["10%"; "25%"];
     eligibility_criteria := ["Diploma in relevant field"; "SSC GPA 5.0"];
     required_documents := ["Diploma certificate"];
     deadline := "2025-12-31";
     applicable_programs := ["BSC-CSE"; "BBA"];
     sgpa_required := 3 |}.

Definition sample_rules : list WaiverRule :=
  [income_rule; diploma_rule; left_handed_rule].

Definition sample_profile : gmap string json :=
  {[ "family_income" := JNum 42000; "is_freedom_fighter_child" := JBool true ]}.

Lemma C9_witness :
  calculate_waivers sample_rules cse_programs "CSE" 5 5 true (Some 0%Q) (Some sample_profile)
  = calculate_waivers sample_rules cse_programs "CSE" 5 5 true (Some 0%Q)
                      (Some (<["has_diploma" := JBool false]> sample_profile)).
Proof.
  apply C9_absent_key_as_false.
  - unfold boolean_keys. simpl. tauto.
  - vm_compute. reflexivity.
Defined.

Lemma C5_witness :
  (exists ps,
      map_result percentage_key
        [output income_rule 30; output left_handed_rule 15] = Ok ps
      /\ StronglySorted (fun a b => (a >= b)%Z) ps)
  /\ forall v,
      List.filter (has_percentage v) [output income_rule 30; output left_handed_rule 15]
      = map (fun w => output w v)
            (List.filter
               (qualifies_with 5 5 true (Some 0%Q) (default ∅ (Some sample_profile))
                               (program_codes cse_programs "CSE") v)
               sample_rules).
Proof.
  apply (C5_sorted_descending_stable sample_rules cse_programs "CSE" 5 5 true
           (Some 0%Q) (Some sample_profile)).
  vm_compute. reflexivity.
Defined.

End WaiverProofs.

(** ** The department recommender *)

Module RecommenderProofs.

Import Recommender.

#[local] Open Scope Q_scope.

(** The query with another list of interests. *)
Definition with_interests (l : list string) (input : RecommendationInput) : RecommendationInput :=
  {| interests := l;
     academic_background := academic_background input;
     career_goals := career_goals input;
     ssc_gpa := ssc_gpa input;
     hsc_gpa := hsc_gpa input |}.

(** The query extended with one more interest keyword. *)
Definition add_interest (k : string) (input : RecommendationInput) : RecommendationInput :=
  with_interests (interests input ++ [k]) input.

(** One turn of a keyword loop. *)
Definition boost_step (matches : string -> bool) (kb : Q) (k : string) : Q :=
  if matches k then kb + 0.1 else kb.

Lemma keyword_boost_folds input dept :
  keyword_boost input dept
  = fold_left (boost_step (goal_matches dept)) (career_goals input)
      (fold_left (boost_step (interest_matches dept)) (interests input) 0).
Proof. reflexivity. Qed.

Lemma boost_fold_proper matches l a b :
  a == b -> fold_left (boost_step matches) l a == fold_left (boost_step matches) l b.
Proof.
  revert a b. induction l as [|k l IH]; simpl; intros a b Hab; [exact Hab|].
  apply IH. unfold boost_step. destruct (matches k); [now rewrite Hab | exact Hab].
Qed.

Lemma boost_fold_shift matches l a c :
  fold_left (boost_step matches) l (a + c) == fold_left (boost_step matches) l a + c.
Proof.
  revert a. induction l as [|k l IH]; simpl; intros a; [reflexivity|].
  unfold boost_step at 2 4. destruct (matches k); [|apply IH].
  rewrite <- IH. apply boost_fold_proper. ring.
Qed.

Lemma boost_fold_insert matches l1 k l2 a :
  matches k = true ->
  fold_left (boost_step matches) (l1 ++ k :: l2) a
  == fold_left (boost_step matches) (l1 ++ l2) a + 0.1.
Proof.
  intros Hk. rewrite !fold_left_app. simpl. unfold boost_step at 2. rewrite Hk.
  apply boost_fold_shift.
Qed.

(** An interest keyword that matches the department adds 0.1 to its
    keyword boost, wherever it stands in the list. *)
Lemma keyword_boost_insert input dept l1 k l2 :
  interest_matches dept k = true ->
  keyword_boost (with_interests (l1 ++ k :: l2) input) dept
  == keyword_boost (with_interests (l1 ++ l2) input) dept + 0.1.
Proof.
  intros Hk. rewrite !keyword_boost_folds. simpl.
  rewrite <- boost_fold_shift. apply boost_fold_proper.
  now apply boost_fold_insert.
Qed.

Lemma Qltb_asym (a b : Q) : Qltb a b = true -> Qltb b a = false.
Proof. rewrite Qltb_lt, Qltb_ge. apply Qlt_le_weak. Qed.

Lemma Qltb_cotrans (a b c : Q) : Qltb a b = false -> Qltb b c = false -> Qltb a c = false.
Proof. rewrite !Qltb_ge. intros H1 H2. eapply Qle_trans; eassumption. Qed.

Lemma StronglySorted_map {A B : Type} (R : B -> B -> Prop) (f : A -> B) l :
  StronglySorted R (map f l) -> StronglySorted (fun x y => R (f x) (f y)) l.
Proof.
  induction l as [|x l IH]; simpl; intros H; [constructor|].
  apply StronglySorted_inv in H as [Hl Hx]. constructor; [auto|].
  now rewrite List.Forall_map in Hx.
Qed.

Lemma StronglySorted_app_inv {A : Type} (R : A -> A -> Prop) l1 l2 :
  StronglySorted R (l1 ++ l2) -> forall x y, In x l1 -> In y l2 -> R x y.
Proof.
  induction l1 as [|z l1 IH]; simpl; intros H x y Hx Hy; [contradiction|].
  apply StronglySorted_inv in H as [Hl Hz]. destruct Hx as [-> | Hx]; [|eauto].
  rewrite List.Forall_forall in Hz. apply Hz, in_or_app. now right.
Qed.

(** The sort of the recommendations by [match_score]. *)
Lemma sort_by_score_spec (l out : list Recommendation) :
  sorted_desc Qltb (fun r => Ok (match_score r)) l = Ok out ->
  Permutation l out
  /\ StronglySorted (fun x y => match_score y <= match_score x) out.
Proof.
  intros H. split; [eapply sorted_desc_perm; eauto|].
  destruct (sorted_desc_keys Qltb Qltb_asym Qltb_cotrans _ _ _ H) as (ks & Hks & Hs).
  assert (ks = map match_score out) as ->.
  { clear -Hks. revert ks Hks. induction out as [|r out IH]; simpl; intros ks Hks.
    - now inversion Hks.
    - inv_bind Hks. inversion Hks; subst. f_equal. now apply IH. }
  apply StronglySorted_map in Hs.
  clear -Hs. induction Hs as [|r out _ IH Hr]; constructor; [exact IH|].
  eapply List.Forall_impl; [|exact Hr]. intros r' Hr'. now apply Qltb_ge.
Qed.

Lemma sort_by_score_total (l : list Recommendation) :
  exists out, sorted_desc Qltb (fun r => Ok (match_score r)) l = Ok out.
Proof. apply sorted_desc_total, List.Forall_forall. eauto. Qed.

(** The loop keeps the departments whose total score exceeds 0.2. *)
Lemma candidates_In similarities input departments : forall i cands,
  candidates similarities input i departments = Ok cands ->
  forall r, In r cands <->
    exists j dept t,
      nth_error departments j = Some dept
      /\ total_score similarities input (i + j) dept = Ok t
      /\ 0.2 < t
      /\ r = recommendation input dept t.
Proof.
  induction departments as [|d ds IH]; simpl; intros i cands H r.
  - inversion H; subst. split; [contradiction|].
    intros (j & dept & t & Hj & _). now destruct j.
  - inv_bind H. inv_bind H. inversion H; subst. clear H.
    specialize (IH _ _ Ha0 r).
    assert (Hrest : In r a0 <->
      exists j dept t, nth_error (d :: ds) (S j) = Some dept
                       /\ total_score similarities input (i + S j) dept = Ok t
                       /\ 0.2 < t /\ r = recommendation input dept t).
    { rewrite IH. split; intros (j & dept & t & Hj & Ht & Hgt & Hr);
        exists j, dept, t; repeat split; auto;
        [replace (i + S j)%nat with (S i + j)%nat by lia
        |replace (S i + j)%nat with (i + S j)%nat by lia]; exact Ht. }
    destruct (Qgtb a 0.2) eqn:E.
    + simpl. rewrite Hrest. split.
      * intros [<- | (j & Hj)]; [|eauto].
        exists 0%nat, d, a. rewrite Nat.add_0_r. repeat split; auto.
        now apply Qgtb_gt.
      * intros ([|j] & dept & t & Hj & Ht & Hgt & Hr).
        -- left. simpl in Hj. inversion Hj; subst. rewrite Nat.add_0_r in Ht.
           rewrite Ha in Ht. now inversion Ht.
        -- right. eauto 8.
    + rewrite Hrest. split; [intros (j & Hj); eauto|].
      intros ([|j] & dept & t & Hj & Ht & Hgt & Hr); [|eauto 8].
      simpl in Hj. inversion Hj; subst. rewrite Nat.add_0_r in Ht.
      rewrite Ha in Ht. inversion Ht; subst.
      apply Qgtb_gt in Hgt. congruence.
Qed.

Section Engine.

Variable tfidf_cosine : string -> list string -> result (list Q).

(** The total score the run computes for the department at position [i]. *)
Definition score (departments : list Department) (input : RecommendationInput)
    (i : nat) (dept : Department) : result Q :=
  similarities ← tfidf_cosine (user_text input) (map document departments);
  total_score similarities input i dept.

(** C2, as the code has it. The result has at most five elements; each is
    the recommendation of a department whose total score exceeds 0.2; and a
    department whose total score exceeds 0.2 is in the result unless the
    result is full, with five elements whose scores are all at least as
    high. *)
Theorem C2_threshold_and_top_five departments input out :
  recommend_programs tfidf_cosine departments input = Ok out ->
  (length out <= 5)%nat
  /\ (forall r, In r out ->
        exists i dept t,
          nth_error departments i = Some dept
          /\ score departments input i dept = Ok t
          /\ 0.2 < t
          /\ r = recommendation input dept t)
  /\ (forall i dept t,
        nth_error departments i = Some dept ->
        score departments input i dept = Ok t ->
        0.2 < t ->
        In (recommendation input dept t) out
        \/ (length out = 5%nat /\ forall r, In r out -> t <= match_score r)).
Proof.
  unfold recommend_programs, score. intros H.
  inv_bind H. inv_bind H. inv_bind H. inversion H; subst; clear H.
  rename a into sims, a0 into cands, a1 into sorted.
  apply sort_by_score_spec in Ha1 as [Hperm Hsorted].
  pose proof (candidates_In sims input departments 0%nat cands Ha0) as Hc.
  rewrite Ha. simpl. split; [|split].
  - rewrite length_firstn. lia.
  - intros r Hr. apply Hc. eapply Permutation_in; [symmetry; exact Hperm|].
    rewrite <- (firstn_skipn 5 sorted). apply in_or_app. now left.
  - intros i dept t Hi Ht Hgt.
    assert (Hin : In (recommendation input dept t) sorted).
    { eapply Permutation_in; [exact Hperm|]. apply Hc. eauto 8. }
    rewrite <- (firstn_skipn 5 sorted) in Hin, Hsorted.
    apply in_app_or in Hin as [Hin | Hin]; [now left | right].
    split.
    + rewrite length_firstn. apply Nat.min_l.
      destruct (Nat.le_gt_cases 5 (length sorted)) as [Hle | Hgt']; [exact Hle|].
      rewrite skipn_all2 in Hin by lia. contradiction.
    + intros r Hr.
      apply (StronglySorted_app_inv _ _ _ Hsorted r _ Hr Hin).
Qed.

(** The recommender returns a list whenever the vectorizer returns one
    similarity per department. *)
Lemma candidates_returns similarities input departments : forall i,
  (i + length departments <= length similarities)%nat ->
  exists cands, candidates similarities input i departments = Ok cands.
Proof.
  induction departments as [|d ds IH]; simpl; intros i Hlen; [eauto|].
  unfold total_score, index.
  destruct (nth_error similarities i) as [x|] eqn:E.
  - simpl. destruct (IH (S i)) as [cands ->]; [lia|]. simpl. eauto.
  - apply nth_error_None in E. lia.
Qed.

Lemma recommend_programs_returns departments input similarities :
  tfidf_cosine (user_text input) (map document departments) = Ok similarities ->
  length similarities = length departments ->
  exists out, recommend_programs tfidf_cosine departments input = Ok out.
Proof.
  intros Hsim Hlen. unfold recommend_programs. rewrite Hsim. simpl.
  destruct (candidates_returns similarities input departments 0%nat) as [cands ->];
    [simpl; lia|]. simpl.
  destruct (sort_by_score_total cands) as [sorted ->]. simpl. eauto.
Qed.

(** The cosine base score the run reads for position [i]. *)
Definition base_score (departments : list Department) (input : RecommendationInput)
    (i : nat) : result Q :=
  similarities ← tfidf_cosine (user_text input) (map document departments);
  index similarities i.

Lemma score_base_boost departments input i dept :
  score departments input i dept
  = (b ← base_score departments input i; Ok (b + keyword_boost input dept)).
Proof.
  unfold score, base_score, total_score.
  destruct (tfidf_cosine _ _); reflexivity.
Qed.

(** C3, as the code has it. Adding an interest keyword that is a substring
    (up to case) of the department's description raises the department's
    keyword boost by exactly 0.1.  The base score is computed again from the
    extended query text, so the total score is the old total plus 0.1 plus
    the change of the base score. *)
Theorem C3_boost_grows_by_a_tenth departments input i dept k b b' :
  Py.contains (Py.lower k) (Py.lower (description dept)) = true ->
  base_score departments input i = Ok b ->
  base_score departments (add_interest k input) i = Ok b' ->
  keyword_boost (add_interest k input) dept == keyword_boost input dept + 0.1
  /\ exists t t',
      score departments input i dept = Ok t
      /\ score departments (add_interest k input) i dept = Ok t'
      /\ t' == t + 0.1 + (b' - b).
Proof.
  intros Hk Hb Hb'.
  assert (Hboost : keyword_boost (add_interest k input) dept
                   == keyword_boost input dept + 0.1).
  { unfold add_interest.
    rewrite (keyword_boost_insert input dept (interests input) k []).
    - rewrite app_nil_r. destruct input; reflexivity.
    - unfold interest_matches. now rewrite Hk. }
  split; [exact Hboost|].
  rewrite !score_base_boost, Hb, Hb'. simpl.
  eexists. eexists. split; [reflexivity|]. split; [reflexivity|].
  rewrite Hboost. ring.
Qed.

(** C7. The two GPA fields of the query have no part in the result. *)
Theorem C7_gpa_unused departments interests academic_background career_goals
    ssc_gpa hsc_gpa ssc_gpa' hsc_gpa' :
  recommend_programs tfidf_cosine departments
    {| interests := interests; academic_background := academic_background;
       career_goals := career_goals; ssc_gpa := ssc_gpa; hsc_gpa := hsc_gpa |}
  = recommend_programs tfidf_cosine departments
      {| interests := interests; academic_background := academic_background;
         career_goals := career_goals; ssc_gpa := ssc_gpa'; hsc_gpa := hsc_gpa' |}.
Proof.
  unfold recommend_programs, user_text. simpl.
  destruct (tfidf_cosine _ _) as [sims|]; [|reflexivity]. simpl.
  match goal with
  | |- (candidates sims ?i1 _ _ ≫= _) = (candidates sims ?i2 _ _ ≫= _) =>
      assert (Hc : forall n ds, candidates sims i1 n ds = candidates sims i2 n ds)
  end.
  { intros n ds. revert n. induction ds as [|d ds IH]; intros n; simpl; [reflexivity|].
    now rewrite IH. }
  now rewrite Hc.
Qed.

End Engine.

(** C10. An interest keyword found both in the description and in the
    program names of a department adds 0.1 to the keyword boost once: the
    turn of the loop for it adds 0.1, and the boost of a query that holds it
    is 0.1 above the boost of the query without it. *)
Theorem C10_one_boost_for_both input dept l1 k l2 :
  Py.contains (Py.lower k) (Py.lower (description dept)) = true ->
  Py.contains (Py.lower k) (Py.lower (Py.join " " (programs dept))) = true ->
  (forall kb, boost_step (interest_matches dept) kb k = kb + 0.1)
  /\ keyword_boost (with_interests (l1 ++ k :: l2) input) dept
     == keyword_boost (with_interests (l1 ++ l2) input) dept + 0.1.
Proof.
  intros Hd Hp.
  assert (Hk : interest_matches dept k = true).
  { unfold interest_matches. now rewrite Hd. }
  split; [|now apply keyword_boost_insert].
  intros kb. unfold boost_step. now rewrite Hk.
Qed.

(** *** Examples *)

Definition dept (n : Z) (short description : string) (programs : list string) : Department :=
  {| id := n;
     name := short;
     code := short;
     contact := "";
     head := "";
     description := description;
     programs := programs;
     faculty := "";
     location := "";
     website := "";
     established_year := 2002;
     student_capacity := 100;
     accreditation := "" |}.

Definition mechatronics : Department := dept 6 "MCT" "Mechatronics robotics" [].

Definition six_departments : list Department :=
  [ dept 1 "CSE" "Computing robotics" [];
    dept 2 "EEE" "Electronics robotics" [];
    dept 3 "ME" "Mechanics robotics" [];
    dept 4 "SWE" "Software robotics" [];
    dept 5 "ICE" "Communication robotics" [];
    mechatronics ].

(** Three interests, none a word of a description but each a part of the
    word "robotics". *)
Definition robot_query : RecommendationInput :=
  {| interests := ["robot"; "botic"; "otics"];
     academic_background := "";
     career_goals := [];
     ssc_gpa := Some 5;
     hsc_gpa := Some 5 |}.

Definition robotics : Department := dept 1 "ROB" "Robotics" [].

Definition names (r : result (list Recommendation)) : result (list string) :=
  map (fun x => v_name (department x)) <$> r.

(** The score of [robotics] for [robot_query], as the run adds it up. *)
Definition three_boosts : Q := 0 + (0 + 0.1 + 0.1 + 0.1).

Definition score_is (r : result Q) (q : Q) : Prop :=
  match r with
  | Ok t => t == q
  | Raise _ => False
  end.

(** C2, refuted. Six departments have a total score of 0.3 for the query
    [robot_query] (base score 0, three keyword boosts); the result holds the
    first five, and the sixth, [mechatronics], is not in it although its
    score exceeds 0.2. *)
Lemma C2_counterexample :
  score_is (score StandIn.presence_cosine six_departments robot_query 5 mechatronics) 0.3
  /\ 0.2 < 0.3
  /\ names (recommend_programs StandIn.presence_cosine six_departments robot_query)
     = Ok ["CSE"; "EEE"; "ME"; "SWE"; "ICE"]
  /\ ~ In (name mechatronics) ["CSE"; "EEE"; "ME"; "SWE"; "ICE"].
Proof.
  split; [vm_compute; reflexivity|]. split; [reflexivity|].
  split; [vm_compute; reflexivity|].
  simpl. intros H. repeat destruct H as [H | H]; try discriminate H; exact H.
Qed.

Lemma C2_witness :
  (length [recommendation robot_query robotics three_boosts] <= 5)%nat
  /\ (forall r, In r [recommendation robot_query robotics three_boosts] ->
        exists i dept t,
          nth_error [robotics] i = Some dept
          /\ score StandIn.presence_cosine [robotics] robot_query i dept = Ok t
          /\ 0.2 < t
          /\ r = recommendation robot_query dept t)
  /\ (forall i dept t,
        nth_error [robotics] i = Some dept ->
        score StandIn.presence_cosine [robotics] robot_query i dept = Ok t ->
        0.2 < t ->
        In (recommendation robot_query dept t)
           [recommendation robot_query robotics three_boosts]
        \/ (length [recommendation robot_query robotics three_boosts] = 5%nat
            /\ forall r, In r [recommendation robot_query robotics three_boosts] ->
                         t <= match_score r)).
Proof.
  apply (C2_threshold_and_top_five StandIn.presence_cosine [robotics] robot_query).
  vm_compute. reflexivity.
Defined.

(** C3, refuted. The keyword "robotics" is a substring of the description
    of [robotics] and is not among the interests of [robot_query].  With it
    the total score goes from 0.3 to 1.4: the boost grows by 0.1 and the base
    score, computed from the new query text, grows from 0 to 1. *)
Lemma C3_counterexample :
  Py.contains (Py.lower "robotics") (Py.lower (description robotics)) = true
  /\ score_is (score StandIn.presence_cosine [robotics] robot_query 0 robotics) 0.3
  /\ score_is (score StandIn.presence_cosine [robotics]
                     (add_interest "robotics" robot_query) 0 robotics) 1.4
  /\ ~ 1.4 == 0.3 + 0.1.
Proof.
  split; [vm_compute; reflexivity|]. split; [vm_compute; reflexivity|].
  split; [vm_compute; reflexivity|]. intros H. vm_compute in H. discriminate H.
Qed.

Lemma C3_witness :
  keyword_boost (add_interest "robotics" robot_query) robotics
  == keyword_boost robot_query robotics + 0.1
  /\ exists t t',
      score StandIn.presence_cosine [robotics] robot_query 0 robotics = Ok t
      /\ score StandIn.presence_cosine [robotics]
               (add_interest "robotics" robot_query) 0 robotics = Ok t'
      /\ t' == t + 0.1 + (1 - 0).
Proof.
  apply (C3_boost_grows_by_a_tenth StandIn.presence_cosine [robotics] robot_query
           0 robotics "robotics" 0 1); vm_compute; reflexivity.
Defined.

Definition software : Department :=
  dept 4 "SWE" "Software engineering and testing" ["BSc in Software Engineering"].

Lemma C10_witness :
  (forall kb, boost_step (interest_matches software) kb "software" = kb + 0.1)
  /\ keyword_boost (with_interests (["testing"] ++ "software" :: ["law"]) robot_query) software
     == keyword_boost (with_interests (["testing"] ++ ["law"]) robot_query) software + 0.1.
Proof.
  apply (C10_one_boost_for_both robot_query software ["testing"] "software" ["law"]);
    vm_compute; reflexivity.
Defined.

End RecommenderProofs.

(** ** The FAQ matcher *)

Module ChatProofs.

Import Chat.

#[local] Open Scope Q_scope.

Lemma split_aux_nonempty sep s : forall skip cur, Py.split_aux sep skip cur s <> [].
Proof.
  induction s as [|c s IH]; simpl; intros skip cur; [easy|].
  destruct skip; [|apply IH].
  match goal with |- (if ?b then _ else _) <> _ => destruct b end; [easy | apply IH].
Qed.

Lemma max2_le (a b c : Q) : a <= c -> b <= c -> max2 a b <= c.
Proof. unfold max2. now destruct (Qltb a b). Qed.

Lemma max2_full (a b : Q) : a <= 1 -> b <= 1 -> (a == 1 \/ b == 1) -> max2 a b == 1.
Proof.
  intros Ha Hb H. unfold max2. destruct (Qltb a b) eqn:E.
  - apply Qltb_lt in E. destruct H as [H | H]; [|exact H].
    rewrite H in E. exfalso. eapply Qlt_not_le; eassumption.
  - apply Qltb_ge in E. destruct H as [H | H]; [exact H|].
    rewrite H in E. now apply Qle_antisym.
Qed.

Lemma fold_max2_le (l : list Q) (x c : Q) :
  x <= c -> Forall (fun y => y <= c) l -> fold_left max2 l x <= c.
Proof.
  revert x. induction l as [|y l IH]; simpl; intros x Hx Hl; [exact Hx|].
  apply List.Forall_cons_iff in Hl as [Hy Hl]. apply IH; [|exact Hl].
  now apply max2_le.
Qed.

Lemma fold_max2_full (l : list Q) (x : Q) :
  x <= 1 -> Forall (fun y => y <= 1) l ->
  (x == 1 \/ Exists (fun y => y == 1) l) -> fold_left max2 l x == 1.
Proof.
  revert x. induction l as [|y l IH]; simpl; intros x Hx Hl H.
  - destruct H as [H | H]; [exact H | inversion H].
  - apply List.Forall_cons_iff in Hl as [Hy Hl].
    apply IH; [now apply max2_le | exact Hl |].
    destruct H as [H | H].
    + left. apply max2_full; auto.
    + apply List.Exists_cons in H as [H | H]; [|now right].
      left. apply max2_full; auto.
Qed.

Section Matcher.

Variable ratio : string -> string -> Q.

#[local] Abbreviation similarity := (similarity ratio).
#[local] Abbreviation keyword_similarity := (keyword_similarity ratio).
#[local] Abbreviation total_similarity := (total_similarity ratio).
#[local] Abbreviation scan := (scan ratio).
#[local] Abbreviation chat_with_bot := (chat_with_bot ratio).

(** The entry's score is 1. *)
Definition full_match (message : string) (faq : FAQ) : bool :=
  match total_similarity message faq with
  | Ok t => Qeq_bool t 1
  | Raise _ => false
  end.

(** C8. The session identifier has no part in the response. *)
Theorem C8_session_id_unused faqs message session_id session_id' :
  chat_with_bot faqs {| message := message; session_id := session_id |}
  = chat_with_bot faqs {| message := message; session_id := session_id' |}.
Proof. reflexivity. Qed.

Lemma keyword_similarity_returns message faq :
  exists k, keyword_similarity message faq = Ok k.
Proof.
  unfold Chat.keyword_similarity. destruct (keywords faq) as [kws|]; [|eauto].
  destruct (String.eqb kws ""); [eauto|].
  unfold Py.split.
  destruct (Py.split_aux ", " 0 EmptyString kws) eqn:E; simpl; [|eauto].
  now apply split_aux_nonempty in E.
Qed.

Lemma total_similarity_returns message faq :
  exists t, total_similarity message faq = Ok t.
Proof.
  unfold Chat.total_similarity.
  destruct (keyword_similarity_returns message faq) as [k ->]. simpl. eauto.
Qed.



Hypothesis ratio_identical : forall s, ratio s s == 1.
Hypothesis ratio_le_1 : forall a b, ratio a b <= 1.

Lemma keyword_similarity_le_1 message faq k :
  keyword_similarity message faq = Ok k -> k <= 1.
Proof.
  unfold Chat.keyword_similarity. destruct (keywords faq) as [kws|].
  - destruct (String.eqb kws ""); [intros [= <-]; discriminate|].
    destruct (map _ _) as [|x l] eqn:E; simpl; [discriminate|].
    intros [= <-]. apply fold_max2_le.
    + assert (Hx : In x (x :: l)) by (simpl; auto). rewrite <- E in Hx.
      apply in_map_iff in Hx as (kw & <- & _). apply ratio_le_1.
    + apply List.Forall_forall. intros y Hy.
      assert (Hy' : In y (x :: l)) by (simpl; auto). rewrite <- E in Hy'.
      apply in_map_iff in Hy' as (kw & <- & _). apply ratio_le_1.
  - intros [= <-]. discriminate.
Qed.

Lemma total_similarity_le_1 message faq t :
  total_similarity message faq = Ok t -> t <= 1.
Proof.
  unfold Chat.total_similarity. intros H. inv_bind H. inversion H; subst.
  apply max2_le; [apply ratio_le_1 | eapply keyword_similarity_le_1; eauto].
Qed.

(** An entry whose question is the message up to case has score 1. *)
Lemma question_full_match message faq :
  Py.lower message = Py.lower (question faq) ->
  similarity message faq == 1 /\ full_match message faq = true.
Proof.
  intros Heq.
  assert (Hs : similarity message faq == 1).
  { unfold Chat.similarity. rewrite Heq. apply ratio_identical. }
  split; [exact Hs|]. unfold full_match, Chat.total_similarity.
  destruct (keyword_similarity_returns message faq) as [k Hk]. rewrite Hk. simpl.
  apply Qeq_bool_iff, max2_full; auto.
  - rewrite Hs. apply Qle_refl.
  - eapply keyword_similarity_le_1; eauto.
Qed.

(** Once the highest similarity is 1 the state no longer changes. *)
Lemma scan_saturated message faqs best hi :
  hi == 1 -> scan message faqs (best, hi) = Ok (best, hi).
Proof.
  intros Hhi. induction faqs as [|faq faqs IH]; simpl; [reflexivity|].
  destruct (total_similarity_returns message faq) as [t Ht]. rewrite Ht. simpl.
  assert (E : Qgtb t hi = false).
  { apply Qltb_ge. rewrite Hhi. eapply total_similarity_le_1; eauto. }
  rewrite E. exact IH.
Qed.

(** The scan stops at the first entry of score 1. *)
Lemma scan_first_full message faqs e : forall best hi,
  hi < 1 ->
  find (full_match message) faqs = Some e ->
  exists hi', scan message faqs (best, hi) = Ok (Some (answer e), hi') /\ hi' == 1.
Proof.
  induction faqs as [|faq faqs IH]; simpl; intros best hi Hhi Hfind; [discriminate|].
  destruct (total_similarity_returns message faq) as [t Ht].
  pose proof (total_similarity_le_1 _ _ _ Ht) as Hle.
  unfold full_match in Hfind. rewrite Ht in *. simpl.
  destruct (Qeq_bool t 1) eqn:E.
  - inversion Hfind; subst. apply Qeq_bool_iff in E.
    assert (Hgt : Qgtb t hi = true) by (apply Qgtb_gt; now rewrite E).
    rewrite Hgt. exists t. split; [now apply scan_saturated | exact E].
  - assert (Hlt : t < 1).
    { apply Qle_lt_or_eq in Hle as [Hlt | Heq]; [exact Hlt|].
      apply Qeq_bool_iff in Heq. congruence. }
    destruct (Qgtb t hi); now apply IH.
Qed.

(** The response is the answer of the first entry of score 1, if any. *)
Lemma chat_first_full faqs input first :
  find (full_match (message input)) faqs = Some first ->
  chat_with_bot faqs input = Ok (Some (answer first)).
Proof.
  intros Hfind. unfold Chat.chat_with_bot.
  destruct (scan_first_full _ _ _ None 0 eq_refl Hfind) as (hi & -> & Hhi).
  simpl. assert (E : Qgtb hi 0.4 = true) by (apply Qgtb_gt; now rewrite Hhi).
  now rewrite E.
Qed.

(** An entry with a keyword that is the message up to case has score 1. *)
Lemma keyword_full_match message faq kws kw :
  keywords faq = Some kws ->
  kws <> EmptyString ->
  In kw (Py.split ", " kws) ->
  Py.lower message = Py.lower kw ->
  full_match message faq = true.
Proof.
  intros Hkws Hne Hkw Heq.
  unfold full_match, Chat.total_similarity, Chat.keyword_similarity.
  rewrite Hkws. apply String.eqb_neq in Hne. rewrite Hne.
  set (rs := map (fun kw => ratio (Py.lower message) (Py.lower kw)) (Py.split ", " kws)).
  assert (Hall : Forall (fun y => y <= 1) rs).
  { apply List.Forall_forall. intros y (kw' & <- & _)%in_map_iff. apply ratio_le_1. }
  assert (Hex : Exists (fun y => y == 1) rs).
  { apply List.Exists_exists. exists (ratio (Py.lower message) (Py.lower kw)). split.
    - apply in_map_iff. eauto.
    - rewrite Heq. apply ratio_identical. }
  destruct rs as [|x l]; [inversion Hex|]. simpl.
  apply List.Forall_cons_iff in Hall as [Hx Hl].
  apply Qeq_bool_iff, max2_full.
  - apply ratio_le_1.
  - now apply fold_max2_le.
  - right. apply fold_max2_full; auto.
    apply List.Exists_cons in Hex as [Hex | Hex]; auto.
Qed.

(** C6, as the code has it. When the message is the question of an entry
    up to case, that entry's similarity is 1, and the matcher returns the
    answer of the first entry of the table whose score (the larger of its
    question similarity and its best keyword similarity) is 1.  This is the
    entry itself unless an earlier entry reaches 1, by its question or by
    one of its keywords. *)
Theorem C6_first_full_match faqs input e :
  In e faqs ->
  Py.lower (message input) = Py.lower (question e) ->
  similarity (message input) e == 1
  /\ exists first,
      find (full_match (message input)) faqs = Some first
      /\ chat_with_bot faqs input = Ok (Some (answer first)).
Proof.
  intros Hin Heq. destruct (question_full_match _ _ Heq) as [Hs Hfull].
  split; [exact Hs|].
  destruct (find (full_match (message input)) faqs) as [first|] eqn:Hfind.
  - exists first. split; [reflexivity|]. now apply chat_first_full.
  - eapply find_none in Hfind; [|exact Hin]. congruence.
Qed.

(** *** Examples *)

Definition tuition_entry : FAQ :=
  {| question := "What is the tuition cost?";
     answer := "Tuition depends on the program; see the programs page.";
     keywords := Some "fees, tuition, cost" |}.

Definition fees_entry : FAQ :=
  {| question := "Fees";
     answer := "The admission fee is 15,000 BDT.";
     keywords := None |}.

Definition fee_table : list FAQ := [tuition_entry; fees_entry].

Definition fees_message : ChatInput := {| message := "fees"; session_id := "s-1" |}.

(** Whatever the similarity ratio, provided it is 1 on equal strings and
    never above 1: the message "fees" is the question of [fees_entry] up to
    case, and the matcher answers with [tuition_entry], which stands first
    and has "fees" among its keywords. *)
Lemma earlier_keyword_wins :
  chat_with_bot fee_table fees_message = Ok (Some (answer tuition_entry)).
Proof.
  apply chat_first_full. unfold fee_table. simpl find.
  rewrite (keyword_full_match "fees" tuition_entry "fees, tuition, cost" "fees");
    [reflexivity | reflexivity | discriminate | vm_compute; auto | reflexivity].
Qed.

End Matcher.

(** The stand-in ratio has the two properties assumed of the library's. *)
Lemma common_prefix_same s : StandIn.common_prefix s s = String.length s.
Proof.
  induction s as [|c s IH]; simpl; [reflexivity|]. now rewrite Ascii.eqb_refl, IH.
Qed.

Lemma common_prefix_le a : forall b,
  (StandIn.common_prefix a b <= String.length a)%nat
  /\ (StandIn.common_prefix a b <= String.length b)%nat.
Proof.
  induction a as [|x a IH]; intros [|y b]; simpl; try lia.
  destruct (Ascii.eqb x y); [|lia]. specialize (IH b). lia.
Qed.

Lemma prefix_ratio_identical s : StandIn.prefix_ratio s s == 1.
Proof.
  unfold StandIn.prefix_ratio. rewrite common_prefix_same.
  destruct (String.length s + String.length s)%nat as [|n] eqn:E; [reflexivity|].
  replace (2 * String.length s)%nat with (S n) by lia.
  apply Qmult_inv_r. intros H. unfold Qeq in H. simpl in H. lia.
Qed.

Lemma prefix_ratio_le_1 a b : StandIn.prefix_ratio a b <= 1.
Proof.
  unfold StandIn.prefix_ratio.
  destruct (String.length a + String.length b)%nat as [|n] eqn:E; [apply Qle_refl|].
  apply Qle_shift_div_r.
  - unfold Qlt. simpl. lia.
  - rewrite Qmult_1_l, <- Zle_Qle. destruct (common_prefix_le a b). lia.
Qed.

Lemma C6_witness :
  similarity StandIn.prefix_ratio (message fees_message) fees_entry == 1
  /\ exists first,
      find (full_match StandIn.prefix_ratio (message fees_message)) [fees_entry; tuition_entry]
      = Some first
      /\ chat_with_bot StandIn.prefix_ratio [fees_entry; tuition_entry] fees_message
         = Ok (Some (answer first)).
Proof.
  apply (C6_first_full_match StandIn.prefix_ratio prefix_ratio_identical prefix_ratio_le_1
           [fees_entry; tuition_entry] fees_message fees_entry).
  - simpl. auto.
  - vm_compute. reflexivity.
Defined.

(** C6, refuted. The message "fees" is the question of [fees_entry] up to
    case, and that question is the only one with similarity 1; the matcher
    returns the answer of [tuition_entry], an earlier entry with the keyword
    "fees", and not the answer of [fees_entry]. *)
Lemma C6_counterexample :
  In fees_entry fee_table
  /\ Py.lower (message fees_message) = Py.lower (question fees_entry)
  /\ chat_with_bot StandIn.prefix_ratio fee_table fees_message
     = Ok (Some (answer tuition_entry))
  /\ answer tuition_entry <> answer fees_entry.
Proof.
  split; [simpl; auto|]. split; [vm_compute; reflexivity|].
  split; [|discriminate].
  apply earlier_keyword_wins; [apply prefix_ratio_identical | apply prefix_ratio_le_1].
Qed.

End ChatProofs.

(** * Further properties of the engines *)

(** ** The waiver calculator: what a result holds and when a call fails *)

Module WaiverMore.

Import Waiver WaiverProofs.

(** [any(code in waiver["applicable_programs"] for code in program_codes)] *)
Definition applies (codes : list string) (w : WaiverRule) : bool :=
  existsb (fun c => mem c (applicable_programs w)) codes.

Section OneRule.

Variables (ssc_gpa hsc_gpa : Q) (is_new_student : bool) (current_sgpa : option Q).
Variable student_profile : gmap string json.

#[local] Abbreviation meets_criteria :=
  (meets_criteria ssc_gpa hsc_gpa is_new_student current_sgpa student_profile).
#[local] Abbreviation evaluate :=
  (evaluate ssc_gpa hsc_gpa is_new_student current_sgpa student_profile).
#[local] Abbreviation eligible :=
  (eligible ssc_gpa hsc_gpa is_new_student current_sgpa student_profile).

(** A boolean criterion: the tag is absent or the profile value is true. *)
Definition flag_ok (tag key : string) (criteria : list string) : bool :=
  negb (mem tag criteria && negb (truthy (dict_get student_profile key))).

(** The block "Check eligibility" with the two tests that can raise in
    front and the others as one conjunction. *)
Lemma meets_criteria_eq w :
  meets_criteria w
  = (income ← (if mem "Family income below 50,000 BDT/month" (eligibility_criteria w)
               then income_fails student_profile else Ok false);
     sgpa ← (if Qgtb (sgpa_required w) 0 && negb is_new_student
             then sgpa_below current_sgpa (sgpa_required w) else Ok false);
     Ok (negb (mem "SSC GPA 5.0" (eligibility_criteria w) && Qltb ssc_gpa 5)
         && negb (mem "HSC GPA 5.0" (eligibility_criteria w) && Qltb hsc_gpa 5)
         && negb (mem "HSC GPA 4.90-4.99" (eligibility_criteria w)
                  && (Qltb hsc_gpa 4.90 || Qgtb hsc_gpa 4.99))
         && negb income
         && flag_ok "Child of freedom fighter" "is_freedom_fighter_child"
                    (eligibility_criteria w)
         && flag_ok "DIU employee or immediate relative" "is_diu_employee_relative"
                    (eligibility_criteria w)
         && flag_ok "National or premier division sports achievement"
                    "has_sports_achievement" (eligibility_criteria w)
         && flag_ok "Diploma in relevant field" "has_diploma" (eligibility_criteria w)
         && flag_ok "Group admission of 5 or more students" "group_admission"
                    (eligibility_criteria w)
         && flag_ok "International student status" "is_international_student"
                    (eligibility_criteria w)
         && negb sgpa)).
Proof.
  unfold Waiver.meets_criteria, flag_ok.
  destruct (if mem "Family income below 50,000 BDT/month" _ then _ else _) as [income|];
    [|reflexivity]. simpl.
  destruct (if Qgtb _ _ && negb _ then _ else _) as [sgpa|]; [|reflexivity]. simpl.
  f_equal.
  repeat match goal with
         | |- context [if ?c then false else _] => destruct c
         end;
    simpl; rewrite ?andb_false_r; reflexivity.
Qed.

Lemma evaluate_Some_iff codes w o :
  evaluate codes w = Ok (Some o)
  <-> applies codes w = true
      /\ meets_criteria w = Ok true
      /\ exists p, waiver_percentage (waiver_rate w) = Ok p /\ o = output w p.
Proof.
  unfold Waiver.evaluate, applies. destruct (existsb _ codes); simpl.
  - destruct (waiver_percentage (waiver_rate w)) as [p|e]; simpl.
    + destruct (meets_criteria w) as [[]|e]; simpl.
      * split; [intros [= <-]; eauto | intros (_ & _ & p' & [= <-] & ->); reflexivity].
      * split; [discriminate | intros (_ & [=] & _)].
      * split; [discriminate | intros (_ & [=] & _)].
    + split; [discriminate | intros (_ & _ & p & [=] & _)].
  - split; [discriminate | intros ([=] & _)].
Qed.

Lemma eligible_In codes ws el :
  eligible codes ws = Ok el ->
  forall o, In o el <-> exists w, In w ws /\ evaluate codes w = Ok (Some o).
Proof.
  revert el. induction ws as [|w ws IH]; simpl; intros el H o.
  - inversion H. split; [contradiction | intros (w & [] & _)].
  - inv_bind H. inv_bind H. inversion H; subst. clear H.
    specialize (IH _ Ha0 o). destruct a as [o'|]; simpl; rewrite IH; split.
    + intros [<- | (w' & Hw' & He)]; eauto.
    + intros (w' & [<- | Hw'] & He); [left; congruence | eauto].
    + intros (w' & Hw' & He); eauto.
    + intros (w' & [<- | Hw'] & He); [congruence | eauto].
Qed.

Lemma eligible_raises codes ws w e :
  In w ws -> evaluate codes w = Raise e -> exists e', eligible codes ws = Raise e'.
Proof.
  induction ws as [|w' ws IH]; simpl; intros Hin He; [contradiction|].
  destruct Hin as [-> | Hin].
  - rewrite He. simpl. eauto.
  - destruct (evaluate codes w') as [o|e0]; simpl; [|eauto].
    destruct (IH Hin He) as [e' ->]. simpl. eauto.
Qed.

End OneRule.

Lemma calculate_waivers_In waiver_data programs faculty ssc_gpa hsc_gpa
    is_new_student current_sgpa student_profile out :
  calculate_waivers waiver_data programs faculty ssc_gpa hsc_gpa is_new_student
                    current_sgpa student_profile = Ok out ->
  forall o, In o out <->
    exists w, In w waiver_data
              /\ evaluate ssc_gpa hsc_gpa is_new_student current_sgpa
                          (default ∅ student_profile)
                          (program_codes programs faculty) w = Ok (Some o).
Proof.
  unfold calculate_waivers. intros H o. inv_bind H.
  rewrite <- (eligible_In _ _ _ _ _ _ _ _ Ha o).
  apply sorted_desc_perm in H. split; apply Permutation_in; [symmetry|]; exact H.
Qed.

(** X1. The elements of a result are exactly the elements built from the
    rules of the table that apply to a program of the department, have a
    well-formed rate and pass the eligibility check; nothing else is
    returned and no such rule is left out. *)
Theorem X1_result_is_the_qualifying_rules waiver_data programs faculty ssc_gpa hsc_gpa
    is_new_student current_sgpa student_profile out :
  calculate_waivers waiver_data programs faculty ssc_gpa hsc_gpa is_new_student
                    current_sgpa student_profile = Ok out ->
  length out <= length waiver_data
  /\ forall o, In o out <->
       exists w p,
         In w waiver_data
         /\ applies (program_codes programs faculty) w = true
         /\ waiver_percentage (waiver_rate w) = Ok p
         /\ meets_criteria ssc_gpa hsc_gpa is_new_student current_sgpa
                           (default ∅ student_profile) w = Ok true
         /\ o = output w p.
Proof.
  intros H. split.
  - unfold calculate_waivers in H. inv_bind H.
    rewrite <- (Permutation_length (sorted_desc_perm _ _ _ _ H)).
    clear H. revert a Ha. induction waiver_data as [|w ws IH]; simpl; intros el Hel.
    + inversion Hel. simpl. lia.
    + inv_bind Hel. inv_bind Hel. inversion Hel; subst.
      specialize (IH _ Ha0). destruct a; simpl; lia.
  - intros o. rewrite (calculate_waivers_In _ _ _ _ _ _ _ _ _ H). split.
    + intros (w & Hw & (Ha & Hm & p & Hp & ->)%evaluate_Some_iff). eauto 10.
    + intros (w & p & Hw & Ha & Hp & Hm & ->). exists w. split; [exact Hw|].
      apply evaluate_Some_iff. eauto 10.
Qed.







(** X4. For a new student the current SGPA plays no part, not even when it
    is missing: the SGPA requirement is tested for continuing students
    only. *)
Theorem X4_new_student_sgpa_unused waiver_data programs faculty ssc_gpa hsc_gpa
    current_sgpa current_sgpa' student_profile :
  calculate_waivers waiver_data programs faculty ssc_gpa hsc_gpa true
                    current_sgpa student_profile
  = calculate_waivers waiver_data programs faculty ssc_gpa hsc_gpa true
                      current_sgpa' student_profile.
Proof.
  unfold calculate_waivers. f_equal.
  induction waiver_data as [|w ws IH]; simpl; [reflexivity|]. rewrite IH.
  unfold evaluate. rewrite !meets_criteria_eq. simpl negb. rewrite andb_false_r.
  reflexivity.
Qed.

(** X5. A department without programs (or an unknown department code)
    gets the empty list, whatever the table holds: no rate is parsed and no
    criterion is tested, so the call cannot fail. *)
Theorem X5_department_without_programs waiver_data programs faculty ssc_gpa hsc_gpa
    is_new_student current_sgpa student_profile :
  Forall (fun p => department_code p <> faculty) programs ->
  calculate_waivers waiver_data programs faculty ssc_gpa hsc_gpa is_new_student
                    current_sgpa student_profile = Ok [].
Proof.
  intros Hnone.
  assert (Hcodes : program_codes programs faculty = []).
  { unfold program_codes. induction Hnone as [|p ps Hp _ IH]; simpl; [reflexivity|].
    apply String.eqb_neq in Hp. now rewrite Hp. }
  unfold calculate_waivers. rewrite Hcodes.
  assert (Hel : forall sp, eligible ssc_gpa hsc_gpa is_new_student current_sgpa sp []
                                    waiver_data = Ok []).
  { intros sp. induction waiver_data as [|w ws IH]; simpl; [reflexivity|].
    now rewrite IH. }
  now rewrite Hel.
Qed.

(** X6. One applicable rule with a malformed rate fails the whole call:
    the rate is parsed before the criteria are tested, so the call raises
    even when the student would not qualify for that rule, and no partial
    list is returned. *)
Theorem X6_malformed_rate_fails_the_call waiver_data programs faculty ssc_gpa hsc_gpa
    is_new_student current_sgpa student_profile w e :
  In w waiver_data ->
  applies (program_codes programs faculty) w = true ->
  waiver_percentage (waiver_rate w) = Raise e ->
  exists e',
    calculate_waivers waiver_data programs faculty ssc_gpa hsc_gpa is_new_student
                      current_sgpa student_profile = Raise e'.
Proof.
  intros Hin Happ Hrate. unfold calculate_waivers.
  destruct (eligible_raises ssc_gpa hsc_gpa is_new_student current_sgpa
              (default ∅ student_profile) (program_codes programs faculty)
              waiver_data w e Hin) as [e' ->]; [|simpl; eauto].
  unfold evaluate. unfold applies in Happ. now rewrite Happ, Hrate.
Qed.

(** X7. A family income that is a non-empty text fails the call as soon as
    an applicable rule with a well-formed rate carries the income tag: the
    comparison with 50000 raises. *)
Theorem X7_text_income_fails_the_call waiver_data programs faculty ssc_gpa hsc_gpa
    is_new_student current_sgpa (student_profile : gmap string json) w p text :
  In w waiver_data ->
  applies (program_codes programs faculty) w = true ->
  waiver_percentage (waiver_rate w) = Ok p ->
  In "Family income below 50,000 BDT/month" (eligibility_criteria w) ->
  student_profile !! "family_income" = Some (JStr text) ->
  text <> EmptyString ->
  exists e',
    calculate_waivers waiver_data programs faculty ssc_gpa hsc_gpa is_new_student
                      current_sgpa (Some student_profile) = Raise e'.
Proof.
  intros Hin Happ Hrate Htag Hincome Htext. unfold calculate_waivers.
  destruct (eligible_raises ssc_gpa hsc_gpa is_new_student current_sgpa
              student_profile (program_codes programs faculty)
              waiver_data w TypeError Hin) as [e' He']; [|simpl; rewrite He'; simpl; eauto].
  unfold evaluate. unfold applies in Happ. rewrite Happ, Hrate. simpl.
  rewrite meets_criteria_eq. apply mem_In in Htag. rewrite Htag.
  unfold income_fails, dict_get. rewrite Hincome. simpl.
  apply String.eqb_neq in Htext. now rewrite Htext.
Qed.

Lemma fold_max_ge (l : list Z) (x : Z) :
  (x <= fold_left Z.max l x)%Z /\ Forall (fun q => (q <= fold_left Z.max l x)%Z) l.
Proof.
  revert x. induction l as [|y l IH]; simpl; intros x; [split; [lia | constructor]|].
  destruct (IH (Z.max x y)) as [H1 H2]. split; [lia|]. constructor; [lia | exact H2].
Qed.

Lemma fold_max_In (l : list Z) (x : Z) : In (fold_left Z.max l x) (x :: l).
Proof.
  revert x. induction l as [|y l IH]; intros x; [now left|].
  change (fold_left Z.max (y :: l) x) with (fold_left Z.max l (Z.max x y)).
  destruct (IH (Z.max x y)) as [H | H]; [|right; right; exact H].
  destruct (Z.max_spec x y) as [[_ E] | [_ E]]; rewrite E in H |- *;
    [right; left | left]; exact H.
Qed.

(** X8. For a rate given as a list, the percentage is the greatest entry:
    it is the value of one of the entries and no entry exceeds it.  An empty
    list is an error. *)
Theorem X8_list_rate_is_the_maximum rs p :
  waiver_percentage (RateList rs) = Ok p ->
  rs <> []
  /\ exists ps,
      map_result (fun r => Py.int (Py.strip "%" r)) rs = Ok ps
      /\ In p ps
      /\ Forall (fun q => (q <= p)%Z) ps.
Proof.
  simpl. intros H. inv_bind H. destruct a as [|x l]; [discriminate|].
  injection H as <-. split.
  - intros ->. discriminate.
  - exists (x :: l). split; [exact Ha|]. split; [apply fold_max_In|].
    constructor; apply fold_max_ge.
Qed.


(** *** Examples *)

Definition broken_rule : WaiverRule :=
  {| id := "W5";
     name := "Sports waiver";
     category := "Sports";
     description := "Waiver for athletes";
     waiver_rate := RateStr "twenty%";
     eligibility_criteria := ["National or premier division sports achievement"];
     required_documents := [];
     deadline := "2025-12-31";
     applicable_programs := ["MSC-CSE"];
     sgpa_required := 0 |}.

Lemma X1_witness :
  length [output income_rule 30; output left_handed_rule 15] <= length sample_rules.
Proof.
  apply (X1_result_is_the_qualifying_rules sample_rules cse_programs "CSE" 5 5 true
           (Some 0%Q) (Some sample_profile)).
  vm_compute. reflexivity.
Defined.



Lemma X5_witness :
  calculate_waivers (broken_rule :: sample_rules) cse_programs "LAW" 5 5 false None None
  = Ok [].
Proof.
  apply X5_department_without_programs.
  repeat constructor; discriminate.
Defined.

Lemma X6_witness :
  exists e',
    calculate_waivers (sample_rules ++ [broken_rule]) cse_programs "CSE" 5 5 true
                      (Some 0%Q) (Some sample_profile) = Raise e'.
Proof.
  apply (X6_malformed_rate_fails_the_call _ _ _ _ _ _ _ _ broken_rule ValueError).
  - simpl. auto 10.
  - vm_compute. reflexivity.
  - vm_compute. reflexivity.
Defined.

Lemma X7_witness :
  exists e',
    calculate_waivers sample_rules cse_programs "CSE" 5 5 true (Some 0%Q)
                      (Some {[ "family_income" := JStr "42,000" ]}) = Raise e'.
Proof.
  apply (X7_text_income_fails_the_call _ _ _ _ _ _ _ _ income_rule 30%Z "42,000").
  - simpl. auto.
  - vm_compute. reflexivity.
  - vm_compute. reflexivity.
  - simpl. auto.
  - vm_compute. reflexivity.
  - discriminate.
Defined.

Lemma X8_witness :
  ["10%"; "25%"] <> []
  /\ exists ps,
      map_result (fun r => Py.int (Py.strip "%" r)) ["10%"; "25%"] = Ok ps
      /\ In 25%Z ps
      /\ Forall (fun q => (q <= 25)%Z) ps.
Proof.
  apply (X8_list_rate_is_the_maximum ["10%"; "25%"] 25).
  vm_compute. reflexivity.
Defined.

End WaiverMore.

(** ** The recommender: order, boosts and reasons *)

Module RecommenderMore.

Import Recommender RecommenderProofs.

#[local] Open Scope Q_scope.

(** The number of keywords of the query that match the department; a
    keyword given twice counts twice. *)
Definition matches (input : RecommendationInput) (dept : Department) : nat :=
  length (List.filter (interest_matches dept) (interests input))
  + length (List.filter (goal_matches dept) (career_goals input)).

Definition tenths (n : nat) : Q := inject_Z (Z.of_nat n) * 0.1.

Lemma tenths_S n : tenths (S n) == tenths n + 0.1.
Proof.
  unfold tenths. rewrite Nat2Z.inj_succ. unfold Z.succ. rewrite inject_Z_plus. ring.
Qed.

Lemma tenths_add n m : tenths (n + m) == tenths n + tenths m.
Proof.
  unfold tenths. rewrite Nat2Z.inj_add, inject_Z_plus. ring.
Qed.

Lemma boost_fold_count m l a :
  fold_left (boost_step m) l a == a + tenths (length (List.filter m l)).
Proof.
  revert a. induction l as [|k l IH]; simpl; intros a.
  - unfold tenths. simpl. ring.
  - rewrite IH. unfold boost_step. destruct (m k); simpl; [|reflexivity].
    rewrite tenths_S. ring.
Qed.

Lemma keyword_boost_count input dept :
  keyword_boost input dept == tenths (matches input dept).
Proof.
  rewrite keyword_boost_folds, boost_fold_count.
  rewrite (boost_fold_count (interest_matches dept)).
  unfold matches. rewrite tenths_add. ring.
Qed.

Lemma tenths_le n m : (n <= m)%nat -> tenths n <= tenths m.
Proof.
  intros H. unfold tenths. apply Qmult_le_compat_r; [|discriminate].
  rewrite <- Zle_Qle. lia.
Qed.

(** X10. The keyword boost of a department is one tenth of the number of
    keywords of the query that match it, interests and career goals
    together, each occurrence counted. *)
Theorem X10_boost_counts_the_matches input dept :
  keyword_boost input dept == inject_Z (Z.of_nat (matches input dept)) * 0.1.
Proof. apply keyword_boost_count. Qed.

(** X11. Without text similarity (base score 0) a department passes the
    threshold exactly when at least three keywords match it: two matches
    give 0.2, which is not above 0.2. *)
Theorem X11_three_matches_pass_the_threshold similarities input i dept b :
  index similarities i = Ok b ->
  b == 0 ->
  exists t, total_score similarities input i dept = Ok t
            /\ (Qgtb t 0.2 = true <-> (3 <= matches input dept)%nat).
Proof.
  intros Hb Hzero. unfold total_score. rewrite Hb. simpl.
  eexists. split; [reflexivity|].
  rewrite Qgtb_gt, keyword_boost_count, Hzero, Qplus_0_l. split.
  - intros Hgt. destruct (Nat.le_gt_cases 3 (matches input dept)) as [H | H]; [exact H|].
    exfalso. apply (Qlt_not_le _ _ Hgt).
    apply Qle_trans with (tenths 2); [apply tenths_le; lia | discriminate].
  - intros H. apply Qlt_le_trans with (tenths 3); [reflexivity | now apply tenths_le].
Qed.

Lemma contains_empty s : Py.contains "" s = true.
Proof. destruct s; reflexivity. Qed.

(** X12. An empty interest keyword matches every department: the empty
    string is a substring of every description, so adding it to a query
    raises the keyword boost of every department by 0.1. *)
Theorem X12_empty_keyword_matches_everything input dept :
  interest_matches dept "" = true
  /\ goal_matches dept "" = true
  /\ keyword_boost (add_interest "" input) dept == keyword_boost input dept + 0.1.
Proof.
  assert (Hm : interest_matches dept "" = true).
  { unfold interest_matches. simpl Py.lower. now rewrite contains_empty. }
  split; [exact Hm|]. split; [apply contains_empty|].
  unfold add_interest.
  rewrite (keyword_boost_insert input dept (interests input) "" []) by exact Hm.
  rewrite app_nil_r. destruct input; reflexivity.
Qed.

Definition generic_reason : string := "General match based on profile".

(** X13. A recommendation carries one or two reasons, never none; the
    generic reason stands alone exactly when no interest and no career goal
    of the query matches the department. *)
Theorem X13_reasons input dept :
  (1 <= length (reasons_for input dept) <= 2)%nat
  /\ (reasons_for input dept = [generic_reason] <-> matches input dept = 0%nat).
Proof.
  unfold reasons_for, matches, generic_reason.
  destruct (List.filter (interest_matches dept) (interests input)) as [|x xs];
    destruct (List.filter (goal_matches dept) (career_goals input)) as [|y ys]; simpl.
  - split; [lia | tauto].
  - split; [lia|]. split; [intros [=] | discriminate].
  - split; [lia|]. split; [intros [=] | discriminate].
  - split; [lia|]. split; [intros [=] | discriminate].
Qed.

Lemma StronglySorted_firstn {A : Type} (R : A -> A -> Prop) (n : nat) (l : list A) :
  StronglySorted R l -> StronglySorted R (firstn n l).
Proof.
  revert n. induction l as [|x l IH]; intros [|n] H; simpl; try constructor.
  - apply IH. now apply StronglySorted_inv in H.
  - apply StronglySorted_inv in H as [_ H].
    rewrite List.Forall_forall in *. intros y Hy. apply H.
    rewrite <- (firstn_skipn n l). apply in_or_app. now left.
Qed.

Section Engine.

Variable tfidf_cosine : string -> list string -> result (list Q).

(** X14. The recommendations come in descending order of [match_score]:
    no element has a higher score than an element before it. *)
Theorem X14_result_in_descending_order departments input out :
  recommend_programs tfidf_cosine departments input = Ok out ->
  StronglySorted (fun x y => match_score y <= match_score x) out.
Proof.
  unfold recommend_programs. intros H. inv_bind H. inv_bind H. inv_bind H.
  injection H as <-. apply StronglySorted_firstn.
  now apply sort_by_score_spec in Ha1 as [_ Hs].
Qed.

End Engine.

(** *** Examples *)

Lemma X11_witness :
  exists t, total_score [0] robot_query 0 robotics = Ok t
            /\ (Qgtb t 0.2 = true <-> (3 <= matches robot_query robotics)%nat).
Proof.
  apply (X11_three_matches_pass_the_threshold [0] robot_query 0 robotics 0);
    reflexivity.
Defined.

Lemma X14_witness :
  StronglySorted (fun x y => match_score y <= match_score x)
                 [recommendation robot_query robotics three_boosts].
Proof.
  apply (X14_result_in_descending_order StandIn.presence_cosine [robotics] robot_query).
  vm_compute. reflexivity.
Defined.

End RecommenderMore.

(** ** The FAQ matcher: which answer is returned *)

Module ChatMore.

Import Chat ChatProofs.

#[local] Open Scope Q_scope.

Section Matcher.

Variable ratio : string -> string -> Q.

#[local] Abbreviation total_similarity := (total_similarity ratio).
#[local] Abbreviation scan := (scan ratio).
#[local] Abbreviation chat_with_bot := (chat_with_bot ratio).

(** The score of an entry: [total_similarity], which never raises. *)
Definition score (message : string) (faq : FAQ) : Q :=
  match total_similarity message faq with
  | Ok t => t
  | Raise _ => 0
  end.

Lemma total_similarity_score message faq :
  total_similarity message faq = Ok (score message faq).
Proof.
  unfold score. now destruct (total_similarity_returns ratio message faq) as [t ->].
Qed.

Lemma scan_app message l1 l2 state :
  scan message (l1 ++ l2) state = (scan message l1 state ≫= scan message l2).
Proof.
  revert state. induction l1 as [|faq l1 IH]; intros state; simpl; [reflexivity|].
  rewrite total_similarity_score. simpl. apply IH.
Qed.

(** Entries that do not beat the highest similarity leave the state as it
    is. *)
Lemma scan_unchanged message faqs best hi :
  (forall x, In x faqs -> score message x <= hi) ->
  scan message faqs (best, hi) = Ok (best, hi).
Proof.
  induction faqs as [|faq faqs IH]; simpl; intros H; [reflexivity|].
  rewrite total_similarity_score. simpl.
  assert (E : Qgtb (score message faq) hi = false) by (apply Qltb_ge; auto).
  rewrite E. auto.
Qed.

(** The highest similarity stays below a bound that no entry reaches. *)
Lemma scan_below message faqs (bound : Q) : forall best hi,
  hi < bound ->
  (forall x, In x faqs -> score message x < bound) ->
  exists best' hi', scan message faqs (best, hi) = Ok (best', hi') /\ hi' < bound.
Proof.
  induction faqs as [|faq faqs IH]; simpl; intros best hi Hhi H; [eauto|].
  rewrite total_similarity_score. simpl.
  destruct (Qgtb (score message faq) hi); apply IH; auto.
Qed.

Lemma scan_at_most message faqs (bound : Q) : forall best hi,
  hi <= bound ->
  (forall x, In x faqs -> score message x <= bound) ->
  exists best' hi', scan message faqs (best, hi) = Ok (best', hi') /\ hi' <= bound.
Proof.
  induction faqs as [|faq faqs IH]; simpl; intros best hi Hhi H; [eauto|].
  rewrite total_similarity_score. simpl.
  destruct (Qgtb (score message faq) hi); apply IH; auto.
Qed.

(** X15. When no entry scores above 0.4 (in particular when the table is
    empty) the response is the fixed fallback text; a score of exactly 0.4
    is not enough. *)
Theorem X15_fallback_below_threshold faqs input :
  (forall x, In x faqs -> score (message input) x <= 0.4) ->
  chat_with_bot faqs input = Ok (Some fallback).
Proof.
  intros H. unfold Chat.chat_with_bot.
  destruct (scan_at_most (message input) faqs 0.4 None 0) as (best & hi & -> & Hhi);
    [discriminate | exact H |].
  simpl. apply Qltb_ge in Hhi. unfold Qgtb. now rewrite Hhi.
Qed.

(** X16. The response is the answer of the first entry with the highest
    score, when that score is above 0.4: an entry that beats every entry
    before it and is not beaten by an entry after it gives the answer. *)
Theorem X16_first_highest_score_answers pre e post input :
  0.4 < score (message input) e ->
  (forall x, In x pre -> score (message input) x < score (message input) e) ->
  (forall x, In x post -> score (message input) x <= score (message input) e) ->
  chat_with_bot (pre ++ e :: post) input = Ok (Some (answer e)).
Proof.
  intros Hthreshold Hpre Hpost. unfold Chat.chat_with_bot.
  rewrite scan_app.
  destruct (scan_below (message input) pre (score (message input) e) None 0)
    as (best & hi & -> & Hhi); [|exact Hpre|].
  { eapply Qlt_trans; [|exact Hthreshold]. reflexivity. }
  simpl. rewrite total_similarity_score. simpl.
  apply Qgtb_gt in Hhi. rewrite Hhi.
  rewrite scan_unchanged by exact Hpost. simpl.
  apply Qgtb_gt in Hthreshold. now rewrite Hthreshold.
Qed.


End Matcher.

(** *** Examples *)

Definition campus_entry : FAQ :=
  {| question := "Where is the campus?";
     answer := "The permanent campus is in Ashulia.";
     keywords := Some "" |}.

Lemma X15_witness :
  chat_with_bot StandIn.prefix_ratio [campus_entry; tuition_entry]
                {| message := "hostel"; session_id := "s-2" |}
  = Ok (Some fallback).
Proof.
  apply X15_fallback_below_threshold.
  intros x [<- | [<- | []]]; vm_compute; discriminate.
Defined.

Lemma X16_witness :
  chat_with_bot StandIn.prefix_ratio ([campus_entry] ++ tuition_entry :: [fees_entry])
                fees_message
  = Ok (Some (answer tuition_entry)).
Proof.
  apply X16_first_highest_score_answers.
  - vm_compute. reflexivity.
  - intros x [<- | []]. vm_compute. reflexivity.
  - intros x [<- | []]. vm_compute. discriminate.
Defined.

End ChatMore.

(** ** Regular expressions: what the matcher computes *)

Module ReFacts.

Import Re.

#[local] Open Scope list_scope.

(** No [^] and no [$] in the expression. *)
Fixpoint anchor_free (r : regex) : bool :=
  match r with
  | Bol | Eol => false
  | Cat r1 r2 | Alt r1 r2 => anchor_free r1 && anchor_free r2
  | Repeat _ _ r' => anchor_free r'
  | _ => true
  end.

(** [j] words of [L], one after the other. *)
Fixpoint power (L : list ascii -> Prop) (j : nat) (w : list ascii) : Prop :=
  match j with
  | O => w = []
  | S j' => exists u v, w = u ++ v /\ L u /\ power L j' v
  end.

(** The words an expression without anchors matches. *)
Fixpoint lang (r : regex) (w : list ascii) : Prop :=
  match r with
  | Empty => w = []
  | Lit c => w = [c]
  | Dot => exists d, w = [d] /\ d <> "010"%char
  | OneOf negated items =>
      exists d, w = [d] /\ xorb negated (existsb (in_item d) items) = true
  | Cat r1 r2 => exists u v, w = u ++ v /\ lang r1 u /\ lang r2 v
  | Alt r1 r2 => lang r1 w \/ lang r2 w
  | Repeat min max r' =>
      exists j, min <= j
                /\ (match max with Some m => j <= m | None => True end)
                /\ power (lang r') j w
  | Bol | Eol => False
  end.

(** The texts left after exactly [j] rounds. *)
Fixpoint after (step : list ascii -> list (list ascii)) (j : nat)
    (current : list (list ascii)) : list (list ascii) :=
  match j with
  | O => current
  | S j' => after step j' (flat_map step current)
  end.

Lemma rounds_In step max : forall min current t,
  In t (rounds step min max current)
  <-> exists j, min <= j <= max /\ In t (after step j current).
Proof.
  induction max as [|max IH]; intros min current t; simpl; rewrite in_app_iff.
  - split.
    + intros [H | []]. destruct min; [|contradiction]. exists 0. split; [lia | exact H].
    + intros (j & Hj & H). assert (j = 0) by lia. assert (min = 0) by lia. subst. now left.
  - rewrite IH. split.
    + intros [H | (j & Hj & H)].
      * destruct min; [|contradiction]. exists 0. split; [lia | exact H].
      * exists (S j). split; [lia | exact H].
    + intros ([|j] & Hj & H).
      * left. assert (min = 0) by lia. subst. exact H.
      * right. exists j. split; [lia | exact H].
Qed.

Section Step.

Variable step : list ascii -> list (list ascii).
Variable L : list ascii -> Prop.
Hypothesis step_spec : forall s t, In t (step s) <-> exists w, s = w ++ t /\ L w.

Lemma after_In j : forall current t,
  In t (after step j current)
  <-> exists s w, In s current /\ s = w ++ t /\ power L j w.
Proof.
  induction j as [|j IH]; intros current t; simpl.
  - split.
    + intros H. exists t, []. auto.
    + intros (s & w & Hs & -> & ->). exact Hs.
  - rewrite IH. split.
    + intros (mid & w & Hmid & -> & Hw).
      apply List.in_flat_map in Hmid as (s & Hs & Hmid).
      apply step_spec in Hmid as (u & -> & Hu).
      exists (u ++ w ++ t), (u ++ w). split; [exact Hs|].
      split; [now rewrite app_assoc|]. exists u, w. auto.
    + intros (s & w & Hs & -> & u & v & -> & Hu & Hv).
      exists (v ++ t), v. split; [|auto].
      apply List.in_flat_map. exists ((u ++ v) ++ t). split; [exact Hs|].
      apply step_spec. exists u. split; [now rewrite app_assoc | exact Hu].
Qed.

End Step.

(** More rounds than letters: one round matched nothing and can go. *)
Lemma power_shrink (L : list ascii -> Prop) j : forall w,
  power L (S j) w -> length w <= j -> power L j w.
Proof.
  induction j as [|j IH]; intros w (u & v & -> & Hu & Hv) Hlen.
  - rewrite length_app in Hlen. simpl in Hv. subst v.
    destruct u; [reflexivity | simpl in Hlen; lia].
  - destruct u as [|c u]; [exact Hv|].
    exists (c :: u), v. split; [reflexivity|]. split; [exact Hu|].
    apply IH; [exact Hv|]. rewrite length_app in Hlen. simpl in Hlen. lia.
Qed.

Lemma power_bounded (L : list ascii -> Prop) min j : forall w,
  power L j w -> min <= j ->
  exists j', min <= j' <= min + length w /\ power L j' w.
Proof.
  induction j as [|j IH]; intros w Hw Hmin.
  - exists 0. split; [lia | exact Hw].
  - destruct (Nat.le_gt_cases (S j) (min + length w)) as [Hle | Hgt].
    + exists (S j). split; [lia | exact Hw].
    + apply IH; [apply power_shrink; [exact Hw | lia] | lia].
Qed.

(** The matcher is exact: the texts it leaves are the subject without a
    prefix the expression matches. *)
Theorem run_lang (r : regex) :
  anchor_free r = true ->
  forall n s t, In t (run r n s) <-> exists w, s = w ++ t /\ lang r w.
Proof.
  induction r as [| c | | negated items | r1 IH1 r2 IH2 | r1 IH1 r2 IH2
                  | min max r IH | |]; simpl; intros Hfree n s t;
    try discriminate.
  - split.
    + intros [<- | []]. exists []. auto.
    + intros (w & -> & ->). now left.
  - destruct s as [|d s]; simpl.
    + split; [contradiction | intros (w & Hs & ->); discriminate].
    + destruct (Ascii.eqb_spec c d) as [<- | Hne]; simpl.
      * split.
        -- intros [<- | []]. exists [c]. auto.
        -- intros (w & Hs & ->). injection Hs as <-. now left.
      * split; [contradiction | intros (w & Hs & ->); injection Hs as <- _; congruence].
  - destruct s as [|d s]; simpl.
    + split; [contradiction | intros (w & Hs & e & -> & _); discriminate].
    + destruct (Ascii.eqb_spec d "010") as [-> | Hne]; simpl.
      * split; [contradiction|].
        intros (w & Hs & e & -> & He). injection Hs as <- _. congruence.
      * split.
        -- intros [<- | []]. exists [d]. split; [reflexivity|]. eauto.
        -- intros (w & Hs & e & -> & _). injection Hs as <- <-. now left.
  - destruct s as [|d s]; simpl.
    + split; [contradiction | intros (w & Hs & e & -> & _); discriminate].
    + destruct (xorb negated (existsb (in_item d) items)) eqn:E; simpl.
      * split.
        -- intros [<- | []]. exists [d]. split; [reflexivity|]. eauto.
        -- intros (w & Hs & e & -> & _). injection Hs as <- <-. now left.
      * split; [contradiction|].
        intros (w & Hs & e & -> & He). injection Hs as <- <-. congruence.
  - apply andb_true_iff in Hfree as [H1 H2]. rewrite List.in_flat_map. split.
    + intros (mid & (u & -> & Hu)%(IH1 H1) & (v & -> & Hv)%(IH2 H2)).
      exists (u ++ v). split; [now rewrite app_assoc | eauto].
    + intros (w & -> & u & v & -> & Hu & Hv). exists (v ++ t). split.
      * apply (IH1 H1). exists u. split; [now rewrite app_assoc | exact Hu].
      * apply (IH2 H2). eauto.
  - apply andb_true_iff in Hfree as [H1 H2]. rewrite in_app_iff, (IH1 H1), (IH2 H2).
    split.
    + intros [(w & -> & Hw) | (w & -> & Hw)]; eauto.
    + intros (w & -> & [Hw | Hw]); eauto.
  - rewrite rounds_In. split.
    + intros (j & Hj & H).
      apply (after_In (run r n) (lang r) (IH Hfree n)) in H as (s' & w & [<- | []] & -> & Hw).
      exists w. split; [reflexivity|]. exists j. split; [lia|]. split; [|exact Hw].
      destruct max; [lia | exact I].
    + intros (w & -> & j & Hmin & Hmax & Hw). destruct max as [m|].
      * exists j. split; [lia|].
        apply (after_In (run r n) (lang r) (IH Hfree n)). exists (w ++ t), w. simpl. auto.
      * destruct (power_bounded (lang r) min j w Hw Hmin) as (j' & Hj' & Hw').
        exists j'. split; [rewrite length_app; lia|].
        apply (after_In (run r n) (lang r) (IH Hfree n)). exists (w ++ t), w. simpl. auto.
Qed.

End ReFacts.

(** ** The validators *)

Module ValidatorFacts.

Import Re ReFacts Validators.

#[local] Open Scope list_scope.

(** The tree of the phone pattern. *)
Definition phone_prefix : regex :=
  Repeat 0 (Some 1)
    (Alt (Cat (Lit "+") (Cat (Lit "8") (Cat (Lit "8") (Cat (Lit "0") Empty))))
         (Alt (Cat (Lit "8") (Cat (Lit "8") (Cat (Lit "0") Empty)))
              (Cat (Lit "0") Empty))).

Definition digit : regex := OneOf false [Category false Digit].

Definition phone_regex : regex :=
  Cat Bol
    (Cat phone_prefix
       (Cat (Lit "1")
          (Cat (OneOf false [Range "3" "9"])
             (Cat (Repeat 8 (Some 8) digit)
                (Cat Eol Empty))))).

Lemma compile_phone_pattern : compile phone_pattern = Parsed phone_regex.
Proof. vm_compute. reflexivity. Qed.

(** The library refuses the e-mail pattern: in the set [[\w-\.]] the
    hyphen announces a range, and [\w] is not a character. *)
Lemma compile_email_pattern : compile email_pattern = PatternError.
Proof. vm_compute. reflexivity. Qed.

(** The four ways a number may start. *)
Definition prefixes : list (list ascii) :=
  map list_ascii_of_string ["+880"; "880"; "0"; ""]%string.

(** The national number: 1, a digit from 3 to 9, eight digits. *)
Definition national (w : list ascii) : Prop :=
  exists operator subscriber,
    w = "1"%char :: operator :: subscriber
    /\ Ascii.leb "3" operator && Ascii.leb operator "9" = true
    /\ length subscriber = 8
    /\ Forall (fun c => Py.is_digit c = true) subscriber.

(** What [validate_phone] accepts: a prefix, the national number, and
    possibly one final line feed. *)
Definition phone_shape (s : list ascii) : Prop :=
  exists prefix number stop,
    s = prefix ++ number ++ stop
    /\ In prefix prefixes
    /\ national number
    /\ (stop = [] \/ stop = ["010"%char]).

Lemma run_Cat_free a b n s t :
  anchor_free a = true ->
  In t (run (Cat a b) n s) <-> exists w mid, s = w ++ mid /\ lang a w /\ In t (run b n mid).
Proof.
  intros Hfree. simpl. rewrite List.in_flat_map. split.
  - intros (mid & (w & -> & Hw)%(run_lang a Hfree) & Ht). eauto.
  - intros (w & mid & -> & Hw & Ht). exists mid. split; [|exact Ht].
    apply (run_lang a Hfree). eauto.
Qed.

Lemma run_from_start r s t :
  In t (run (Cat Bol r) (length s) s) <-> In t (run r (length s) s).
Proof. simpl. rewrite Nat.eqb_refl. simpl. now rewrite app_nil_r. Qed.

Lemma run_end n mid t :
  In t (run (Cat Eol Empty) n mid) <-> t = mid /\ (mid = [] \/ mid = ["010"%char]).
Proof.
  simpl. destruct mid as [|c [|d mid]]; simpl.
  - split; [intros [<- | []]; auto | intros [-> _]; auto].
  - destruct c as [[] [] [] [] [] [] [] []]; simpl;
      (split; [try contradiction; intros [<- | []]; auto
              | intros [-> [H | H]]; try discriminate; auto]).
  - destruct c as [[] [] [] [] [] [] [] []]; simpl;
      (split; [contradiction | intros [_ [H | H]]; discriminate]).
Qed.

Lemma lang_phone_prefix w : lang phone_prefix w <-> In w prefixes.
Proof.
  unfold phone_prefix, prefixes. simpl. split.
  - intros (j & _ & Hj & Hw). destruct j as [|[|j]]; [| |lia]; simpl in Hw.
    + subst. auto.
    + destruct Hw as (u & v & -> & Hu & ->). rewrite app_nil_r.
      destruct Hu as [Hu | [Hu | Hu]];
        repeat match goal with
               | H : exists _, _ |- _ => destruct H as (? & ? & -> & -> & H)
               end; subst; simpl; auto.
  - intros [<- | [<- | [<- | [<- | []]]]].
    + exists 1. repeat split; try lia. eexists _, []. split; [symmetry; apply app_nil_r|].
      split; [|reflexivity]. left.
      exists ["+"%char], (list_ascii_of_string "880"). repeat split.
      exists ["8"%char], (list_ascii_of_string "80"). repeat split.
      exists ["8"%char], (list_ascii_of_string "0"). repeat split.
      exists ["0"%char], []. repeat split.
    + exists 1. repeat split; try lia. eexists _, []. split; [symmetry; apply app_nil_r|].
      split; [|reflexivity]. right. left.
      exists ["8"%char], (list_ascii_of_string "80"). repeat split.
      exists ["8"%char], (list_ascii_of_string "0"). repeat split.
      exists ["0"%char], []. repeat split.
    + exists 1. repeat split; try lia. eexists _, []. split; [symmetry; apply app_nil_r|].
      split; [|reflexivity]. right. right.
      exists ["0"%char], []. repeat split.
    + exists 0. repeat split; lia.
Qed.

Lemma power_digits k : forall w,
  power (lang digit) k w <-> length w = k /\ Forall (fun c => Py.is_digit c = true) w.
Proof.
  induction k as [|k IH]; intros w; simpl.
  - split.
    + intros ->. auto.
    + intros [H _]. now destruct w.
  - split.
    + intros (u & v & -> & (d & -> & Hd) & Hv). apply IH in Hv as [Hlen Hall].
      simpl. split; [now f_equal|]. constructor; [|exact Hall].
      simpl in Hd. now rewrite orb_false_r in Hd.
    + intros [Hlen Hall]. destruct w as [|d w]; [discriminate|].
      apply List.Forall_cons_iff in Hall as [Hd Hall].
      exists [d], w. split; [reflexivity|]. split.
      * exists d. split; [reflexivity|]. simpl. now rewrite Hd.
      * apply IH. split; [now injection Hlen | exact Hall].
Qed.

Lemma matches_phone_regex (s : list ascii) :
  (exists t, In t (run phone_regex (length s) s)) <-> phone_shape s.
Proof.
  unfold phone_regex. split.
  - intros (t & Ht). apply (proj1 (run_from_start _ _ _)) in Ht.
    apply run_Cat_free in Ht as (w1 & m1 & -> & Hw1 & Ht); [|reflexivity].
    apply run_Cat_free in Ht as (w2 & m2 & -> & Hw2 & Ht); [|reflexivity].
    apply run_Cat_free in Ht as (w3 & m3 & -> & Hw3 & Ht); [|reflexivity].
    apply run_Cat_free in Ht as (w4 & m4 & -> & Hw4 & Ht); [|reflexivity].
    apply run_end in Ht as [-> Hstop].
    apply lang_phone_prefix in Hw1. simpl in Hw2. subst w2.
    destruct Hw3 as (operator & -> & Hop). simpl in Hop. rewrite orb_false_r in Hop.
    destruct Hw4 as (j & Hmin & Hmax & Hw4). assert (j = 8) as -> by lia.
    apply power_digits in Hw4 as [Hlen Hall].
    exists w1, ("1"%char :: operator :: w4), m4. split; [reflexivity|].
    split; [exact Hw1|]. split; [|exact Hstop].
    exists operator, w4. auto.
  - intros (prefix & number & stop & -> & Hprefix & (operator & subscriber & -> & Hop & Hlen & Hall)
            & Hstop).
    exists stop. apply run_from_start.
    apply run_Cat_free; [reflexivity|]. exists prefix, (("1"%char :: operator :: subscriber) ++ stop).
    split; [reflexivity|]. split; [now apply lang_phone_prefix|].
    apply run_Cat_free; [reflexivity|]. exists ["1"%char], ((operator :: subscriber) ++ stop).
    split; [reflexivity|]. split; [reflexivity|].
    apply run_Cat_free; [reflexivity|]. exists [operator], (subscriber ++ stop).
    split; [reflexivity|]. split.
    { exists operator. split; [reflexivity|]. simpl. now rewrite orb_false_r. }
    apply run_Cat_free; [reflexivity|]. exists subscriber, stop.
    split; [reflexivity|]. split.
    { exists 8. split; [lia|]. split; [lia|]. apply power_digits. auto. }
    apply run_end. auto.
Qed.

Lemma validate_phone_true (phone : string) :
  validate_phone phone = Return true <-> phone_shape (list_ascii_of_string phone).
Proof.
  unfold validate_phone, matches. rewrite compile_phone_pattern.
  rewrite <- matches_phone_regex.
  destruct (run phone_regex _ _) as [|t ts]; split.
  - discriminate.
  - intros (t & []).
  - intros _. exists t. now left.
  - reflexivity.
Qed.

Lemma validate_phone_returns (phone : string) :
  exists b, validate_phone phone = Return b.
Proof. unfold validate_phone, matches. rewrite compile_phone_pattern. eauto. Qed.

Lemma list_of_append (a b : string) :
  list_ascii_of_string (a +:+ b) = list_ascii_of_string a ++ list_ascii_of_string b.
Proof. induction a as [|c a IH]; simpl; [reflexivity | now rewrite <- IH]. Qed.

Lemma length_list_of (s : string) : length (list_ascii_of_string s) = String.length s.
Proof. induction s as [|c s IH]; simpl; [reflexivity | now rewrite IH]. Qed.

Lemma string_length_append (a b : string) :
  String.length (a +:+ b) = String.length a + String.length b.
Proof. induction a as [|c a IH]; simpl; [reflexivity | now rewrite <- IH]. Qed.

(** X19. [validate_phone] never raises, and it accepts exactly the texts
    made of an optional prefix (+880, 880 or 0), the digit 1, a digit from 3
    to 9, eight more digits, and possibly one final line feed; an accepted
    text has between 10 and 15 characters. *)
Theorem X19_phone_numbers_accepted (phone : string) :
  (exists b, validate_phone phone = Return b)
  /\ (validate_phone phone = Return true <-> phone_shape (list_ascii_of_string phone))
  /\ (validate_phone phone = Return true -> 10 <= String.length phone <= 15).
Proof.
  split; [apply validate_phone_returns|]. split; [apply validate_phone_true|].
  intros (prefix & number & stop & Hs & Hprefix & Hnumber & Hstop)%validate_phone_true.
  rewrite <- length_list_of, Hs, !length_app.
  destruct Hnumber as (operator & subscriber & -> & _ & Hlen & _). simpl. rewrite Hlen.
  unfold prefixes in Hprefix. simpl in Hprefix.
  destruct Hstop as [-> | ->];
    destruct Hprefix as [<- | [<- | [<- | [<- | []]]]]; simpl; lia.
Qed.

Lemma national_ends_with_digit number :
  national number -> exists front d, number = front ++ [d] /\ Py.is_digit d = true.
Proof.
  intros (operator & subscriber & -> & _ & Hlen & Hall).
  destruct (exists_last (l := subscriber)) as (front & d & ->).
  { intros ->. discriminate. }
  exists ("1"%char :: operator :: front), d. split; [reflexivity|].
  apply List.Forall_app in Hall as [_ Hd]. now inversion Hd.
Qed.

(** X20. A final line feed is invisible to [validate_phone]: a text
    without line feeds gets the same verdict with a line feed added at its
    end, because [$] also holds before a final line feed. *)
Theorem X20_final_line_feed_is_accepted (phone : string) :
  ~ In "010"%char (list_ascii_of_string phone) ->
  validate_phone (phone +:+ String "010" EmptyString) = validate_phone phone.
Proof.
  intros Hnl.
  assert (Hiff : validate_phone (phone +:+ String "010" EmptyString) = Return true
                 <-> validate_phone phone = Return true).
  { rewrite !validate_phone_true, list_of_append. simpl list_ascii_of_string.
    set (s := list_ascii_of_string phone) in *. split.
    - intros (prefix & number & stop & Hs & Hprefix & Hnumber & [-> | ->]).
      + exfalso. rewrite app_nil_r in Hs.
        destruct (national_ends_with_digit _ Hnumber) as (front & d & -> & Hd).
        rewrite app_assoc in Hs. apply app_inj_tail in Hs as [_ <-]. discriminate Hd.
      + rewrite !app_assoc in Hs. apply app_inj_tail in Hs as [Hs _].
        exists prefix, number, []. rewrite app_nil_r. auto.
    - intros (prefix & number & stop & Hs & Hprefix & Hnumber & [-> | ->]).
      + exists prefix, number, ["010"%char]. rewrite Hs, app_nil_r, app_assoc. auto.
      + exfalso. apply Hnl. rewrite Hs. apply in_or_app. right.
        apply in_or_app. right. now left. }
  destruct (validate_phone_returns (phone +:+ String "010" EmptyString)) as [[] E1];
    destruct (validate_phone_returns phone) as [[] E2]; rewrite E1, E2 in *;
    try reflexivity.
  - symmetry. now apply Hiff.
  - now apply Hiff.
Qed.

Lemma validate_email_raises (email : string) : validate_email email = Throw ReError.
Proof. unfold validate_email, matches. now rewrite compile_email_pattern. Qed.

(** X21. [validate_email] raises [re.error] on every input: the pattern
    itself is refused, so no address is ever accepted or rejected. *)
Theorem X21_email_pattern_is_refused (email : string) :
  validate_email email = Throw ReError.
Proof. apply validate_email_raises. Qed.

Lemma keep_chars_append keep (a b : string) :
  keep_chars keep (a +:+ b) = keep_chars keep a +:+ keep_chars keep b.
Proof.
  induction a as [|c a IH]; simpl; [reflexivity|].
  destruct (keep c); simpl; now rewrite IH.
Qed.

Lemma keep_chars_length keep (s : string) :
  String.length (keep_chars keep s) <= String.length s.
Proof.
  induction s as [|c s IH]; simpl; [lia|]. destruct (keep c); simpl; lia.
Qed.

(** X18. [validate_nid] counts digits and nothing else: a character that
    is not a digit can be added or removed anywhere without changing the
    verdict, a text of fewer than ten characters is rejected, and an
    accepted text stays accepted whatever is put before or after it (there
    is no upper bound on the number of digits). *)
Theorem X18_nid_counts_digits :
  (forall (a b : string) (c : ascii),
      Py.is_digit c = false ->
      validate_nid (a +:+ String c b) = validate_nid (a +:+ b))
  /\ (forall nid, String.length nid < 10 -> validate_nid nid = false)
  /\ (forall a nid b, validate_nid nid = true -> validate_nid (a +:+ nid +:+ b) = true).
Proof.
  unfold validate_nid. split; [|split].
  - intros a b c Hc. rewrite !keep_chars_append. simpl. now rewrite Hc.
  - intros nid Hlen. apply Nat.leb_gt.
    pose proof (keep_chars_length Py.is_digit nid). lia.
  - intros a nid b H. apply Nat.leb_le in H. apply Nat.leb_le.
    rewrite !keep_chars_append, !string_length_append. lia.
Qed.

Lemma X20_witness :
  validate_phone ("01712345678" +:+ String "010" EmptyString) = validate_phone "01712345678".
Proof.
  apply X20_final_line_feed_is_accepted.
  simpl. intros H. repeat destruct H as [H | H]; try discriminate H; exact H.
Defined.

End ValidatorFacts.

(** ** The application endpoint *)

Module ApplicationFacts.

Import Re Validators Application.

(** X22. [submit_application] stores nothing: the first validator it
    calls is [validate_email], which raises [re.error], so every call ends
    there and the database is left as it was, whatever the request holds. *)
Theorem X22_no_application_is_ever_stored now json_dumps db input :
  submit_application now json_dumps db input = (db, Throw ReError).
Proof.
  unfold submit_application. now rewrite ValidatorFacts.validate_email_raises.
Qed.

Lemma fold_max_bound (l : list Z) :
  Forall (fun x => (x <= fold_right Z.max 0 l)%Z) l.
Proof.
  induction l as [|x l IH]; simpl; constructor; [lia|].
  eapply List.Forall_impl; [|exact IH]. intros y Hy. simpl in Hy. lia.
Qed.

(** X23. The statements of [submit_application] that follow the
    validation.  An unknown program code gives the error 404 and leaves the
    database as it was.  Otherwise one row is appended and nothing else
    changes: the row holds the request with the status "pending", its [id]
    is larger than every [id] of the table and than every [id] given out
    before, and the receipt carries that [id]. *)
Theorem X23_stored_application_gets_a_fresh_id now json_dumps db input :
  let '(db', out) := store_application now json_dumps db input in
  programs db' = programs db
  /\ match out with
     | Throw e =>
         e = HTTPException 404 "Program not found"
         /\ db' = db
         /\ Forall (fun p => Waiver.code p <> program_code input) (programs db)
     | Return receipt =>
         Exists (fun p => Waiver.code p = program_code input) (programs db)
         /\ exists row,
             applications db' = (applications db ++ [row])%list
             /\ row_input row = input
             /\ application_status row = "pending"
             /\ row_id row = receipt_id receipt
             /\ sequence db' = row_id row
             /\ (sequence db < row_id row)%Z
             /\ Forall (fun r => (row_id r < row_id row)%Z) (applications db)
     end.
Proof.
  unfold store_application.
  destruct (existsb _ (programs db)) eqn:E.
  - split; [reflexivity|]. split.
    + apply existsb_exists in E as (p & Hp & Hcode%String.eqb_eq).
      apply List.Exists_exists. eauto.
    + eexists. split; [reflexivity|]. simpl. repeat split; try lia.
      pose proof (fold_max_bound (map row_id (applications db))) as Hmax.
      rewrite List.Forall_map in Hmax.
      eapply List.Forall_impl; [|exact Hmax]. intros r Hr. simpl in Hr. lia.
  - split; [reflexivity|]. split; [reflexivity|]. split; [reflexivity|].
    apply List.Forall_forall. intros p Hp Hcode.
    assert (existsb (fun p => String.eqb (Waiver.code p) (program_code input))
                    (programs db) = true); [|congruence].
    apply existsb_exists. exists p. split; [exact Hp | now apply String.eqb_eq].
Qed.

End ApplicationFacts.

(** ** [split] and [join] *)

Module SplitFacts.

Import Py.

(** [s[k:]] *)
Fixpoint drop (k : nat) (s : string) : string :=
  match k, s with
  | S k', String _ s' => drop k' s'
  | _, _ => s
  end.

Lemma append_cons (c : ascii) (s t : string) : String c s +:+ t = String c (s +:+ t).
Proof. reflexivity. Qed.

Lemma append_nil_r (s : string) : s +:+ "" = s.
Proof. induction s as [|c s IH]; [reflexivity | now rewrite append_cons, IH]. Qed.

Lemma append_assoc (a b c : string) : (a +:+ b) +:+ c = a +:+ (b +:+ c).
Proof. induction a as [|x a IH]; [reflexivity | now rewrite !append_cons, IH]. Qed.

Lemma rev_app_append (s t : string) : String.rev_app s t = String.rev s +:+ t.
Proof.
  unfold String.rev. revert t. induction s as [|c s IH]; intros t; simpl; [reflexivity|].
  rewrite IH, (IH (String c "")), append_assoc. reflexivity.
Qed.

Lemma rev_cons (c : ascii) (s : string) :
  String.rev (String c s) = String.rev s +:+ String c "".
Proof. unfold String.rev at 1. simpl. apply rev_app_append. Qed.

Lemma prefix_drop (a b : string) :
  String.prefix a b = true ->
  String.length a <= String.length b /\ a +:+ drop (String.length a) b = b.
Proof.
  revert b. induction a as [|x a IH]; intros b H.
  - split; [simpl; lia | now destruct b].
  - destruct b as [|y b]; simpl in H; [discriminate|].
    destruct (ascii_dec x y) as [<- | Hne]; [|discriminate].
    destruct (IH b H) as [Hlen Heq]. simpl String.length. simpl drop.
    split; [lia | now rewrite append_cons, Heq].
Qed.

Lemma split_aux_cons sep skip cur s :
  exists x l, split_aux sep skip cur s = x :: l.
Proof.
  destruct (split_aux sep skip cur s) as [|x l] eqn:E; [|eauto].
  now apply ChatProofs.split_aux_nonempty in E.
Qed.

Lemma join_cons sep x y l : join sep (x :: y :: l) = x +:+ sep +:+ join sep (y :: l).
Proof. reflexivity. Qed.

Lemma split_aux_here sep cur c s :
  split_aux sep 0 cur (String c s)
  = if String.prefix sep (String c s)
    then String.rev cur :: split_aux sep (String.length sep - 1) "" s
    else split_aux sep 0 (String c cur) s.
Proof. reflexivity. Qed.

Lemma join_split_aux sep s : forall skip cur,
  sep <> "" ->
  skip <= String.length s ->
  join sep (split_aux sep skip cur s) = String.rev cur +:+ drop skip s.
Proof.
  induction s as [|c s IH]; intros skip cur Hsep Hskip.
  - simpl in Hskip. assert (skip = 0) as -> by lia.
    simpl split_aux. simpl drop. rewrite append_nil_r. reflexivity.
  - destruct skip as [|k]; [rewrite split_aux_here | simpl split_aux].
    + destruct (String.prefix sep (String c s)) eqn:E.
      * destruct sep as [|c0 sep0]; [congruence|].
        destruct (prefix_drop _ _ E) as [Hlen Heq]. simpl in Hlen.
        destruct (split_aux_cons (String c0 sep0) (String.length (String c0 sep0) - 1) "" s)
          as (y & l & Hyl).
        rewrite Hyl, join_cons, <- Hyl, IH by (simpl; auto; lia).
        simpl String.length in *.
        replace (S (String.length sep0) - 1) with (String.length sep0) by lia.
        simpl drop in *. change (String.rev "") with "". change ("" +:+ ?x) with x.
        rewrite append_cons in Heq. injection Heq as -> Heq.
        rewrite append_cons, Heq. reflexivity.
      * rewrite (IH 0 (String c cur) Hsep) by lia.
        rewrite rev_cons, append_assoc. reflexivity.
    + simpl in Hskip. rewrite IH by (auto; lia). reflexivity.
Qed.

(** X24. [split] loses nothing: joining the pieces of a text with the
    separator gives the text back, for every non-empty separator, so the
    keyword phrases of an FAQ entry are its [keywords] text cut at each
    ", " and nothing else. *)
Theorem X24_join_of_split (sep s : string) :
  sep <> "" ->
  split sep s <> [] /\ join sep (split sep s) = s.
Proof.
  intros Hsep. split; [apply ChatProofs.split_aux_nonempty|].
  unfold split. rewrite join_split_aux by (auto; lia). reflexivity.
Qed.

Lemma X24_witness :
  split ", " "fees, tuition, cost" <> []
  /\ join ", " (split ", " "fees, tuition, cost") = "fees, tuition, cost".
Proof. apply X24_join_of_split. discriminate. Defined.

End SplitFacts.

(** ** The migration of the [programs] table *)

Module SchemaFacts.

Import Schema.

#[local] Open Scope list_scope.

(** The required columns a table lacks. *)
Definition missing (columns : list column) : list column :=
  List.filter (fun c => negb (Waiver.mem (fst c) (map fst columns))) required_columns.

Definition lower_case (name : string) : Prop := Py.lower name = name.

Lemma same_name_lower a b : lower_case a -> lower_case b -> same_name a b = String.eqb a b.
Proof. unfold same_name, lower_case. now intros -> ->. Qed.

Lemma add_missing_spec existing : forall required columns,
  Forall (fun c => lower_case (fst c)) columns ->
  Forall (fun c => lower_case (fst c)) required ->
  List.NoDup (map fst required) ->
  (forall c, In c columns -> In (fst c) existing \/ ~ In (fst c) (map fst required)) ->
  add_missing existing required columns
  = Altered (columns
             ++ List.filter (fun c => negb (Waiver.mem (fst c) existing)) required).
Proof.
  induction required as [|c rest IH]; intros columns Hcols Hreq Hnodup Hsep; simpl.
  - now rewrite app_nil_r.
  - apply List.Forall_cons_iff in Hreq as [Hc Hrest].
    simpl in Hnodup. apply List.NoDup_cons_iff in Hnodup as [Hfresh Hnodup].
    destruct (Waiver.mem (fst c) existing) eqn:E; simpl.
    + apply IH; auto. intros x Hx. destruct (Hsep x Hx) as [H | H]; [auto|].
      right. simpl in H. tauto.
    + unfold add_column.
      assert (Hnew : existsb (fun x => same_name (fst x) (fst c)) columns = false).
      { apply not_true_iff_false. intros (x & Hx & Hsame)%existsb_exists.
        rewrite List.Forall_forall in Hcols.
        rewrite same_name_lower in Hsame by auto. apply String.eqb_eq in Hsame.
        destruct (Hsep x Hx) as [H | H].
        - rewrite Hsame in H. apply WaiverProofs.mem_In in H. congruence.
        - apply H. simpl. auto. }
      rewrite Hnew, IH; auto.
      * now rewrite <- app_assoc.
      * apply List.Forall_app. split; [exact Hcols | now constructor].
      * intros x [Hx | [<- | []]]%in_app_or; [|now right].
        destruct (Hsep x Hx) as [H | H]; [auto|]. right. simpl in H. tauto.
Qed.

Lemma required_lower_case : Forall (fun c => lower_case (fst c)) required_columns.
Proof. repeat constructor. Qed.

Lemma required_distinct : List.NoDup (map fst required_columns).
Proof.
  simpl. repeat constructor; simpl; intros H;
    repeat destruct H as [H | H]; try discriminate H; exact H.
Qed.

Lemma migrate_lower_case columns :
  Forall (fun c => lower_case (fst c)) columns ->
  migrate_programs (Some columns) = Altered (columns ++ missing columns).
Proof.
  intros Hcols. unfold migrate_programs, missing. simpl create_programs.
  apply add_missing_spec; auto using required_lower_case, required_distinct.
  intros c Hc. left. now apply in_map.
Qed.

Lemma missing_nothing columns :
  (forall c, In c required_columns -> In (fst c) (map fst columns)) ->
  missing columns = [].
Proof.
  intros H. unfold missing.
  induction required_columns as [|c rest IH]; simpl; [reflexivity|].
  rewrite (proj2 (WaiverProofs.mem_In _ _)) by (apply H; simpl; auto). simpl.
  apply IH. intros x Hx. apply H. simpl. auto.
Qed.

(** X25. On a table whose column names are in lower case, the migration
    never fails; it keeps every column in its place, adds after them exactly
    the required columns the table lacks, in the order of
    [required_columns], so that all six are present afterwards, and a second
    run adds nothing. *)
Theorem X25_migration_adds_the_missing_columns columns :
  Forall (fun c => lower_case (fst c)) columns ->
  exists columns',
    migrate_programs (Some columns) = Altered columns'
    /\ columns' = columns ++ missing columns
    /\ (forall c, In c required_columns -> In (fst c) (map fst columns'))
    /\ migrate_programs (Some columns') = Altered columns'.
Proof.
  intros Hcols. exists (columns ++ missing columns).
  split; [now apply migrate_lower_case|]. split; [reflexivity|].
  assert (Hall : forall c, In c required_columns ->
                           In (fst c) (map fst (columns ++ missing columns))).
  { intros c Hc. rewrite map_app. apply in_or_app.
    destruct (Waiver.mem (fst c) (map fst columns)) eqn:E.
    - left. now apply WaiverProofs.mem_In.
    - right. apply in_map. apply filter_In. split; [exact Hc | now rewrite E]. }
  split; [exact Hall|].
  rewrite migrate_lower_case.
  - now rewrite (missing_nothing _ Hall), app_nil_r.
  - apply List.Forall_app. split; [exact Hcols|].
    unfold missing. apply List.Forall_forall. intros c [Hc _]%filter_In.
    pose proof required_lower_case as H. rewrite List.Forall_forall in H. auto.
Qed.

(** A database without a [programs] table gets the thirteen columns of the
    [CREATE TABLE] statement, which include the six required ones: nothing
    is altered. *)
Lemma migrate_fresh : migrate_programs None = Altered programs_columns.
Proof. reflexivity. Qed.

(** X26. A table that lacks a required column under its exact name but
    has a column whose name differs from it only by case makes the
    migration fail: Python's [not in] compares the names exactly, SQLite
    does not, and [ALTER TABLE] reports a duplicate column name. *)
Theorem X26_case_clash_fails_the_migration columns c x :
  In c required_columns ->
  ~ In (fst c) (map fst columns) ->
  In x columns ->
  same_name (fst x) (fst c) = true ->
  exists message, migrate_programs (Some columns) = OperationalError message.
Proof.
  intros Hc Habsent Hx Hsame. unfold migrate_programs. simpl create_programs.
  assert (Hgen : forall required current,
    In c required ->
    (forall y, In y columns -> In y current) ->
    exists message, add_missing (map fst columns) required current
                    = OperationalError message).
  { induction required as [|r rest IH]; intros current Hin Hsub; [contradiction|].
    cbn [add_missing]. destruct Hin as [-> | Hin].
    - destruct (Waiver.mem (fst c) (map fst columns)) eqn:E.
      { apply WaiverProofs.mem_In in E. contradiction. }
      unfold add_column.
      assert (Hdup : existsb (fun y => same_name (fst y) (fst c)) current = true).
      { apply existsb_exists. exists x. split; [auto | exact Hsame]. }
      rewrite Hdup. eauto.
    - destruct (Waiver.mem (fst r) (map fst columns)); [now apply IH|].
      unfold add_column. destruct (existsb _ current); [eauto|].
      apply IH; [exact Hin|]. intros y Hy. apply in_or_app. left. auto. }
  apply Hgen; auto.
Qed.

(** *** Examples *)

(** A table from before the six columns were introduced. *)
Definition old_programs : list column :=
  [ ("id", "INTEGER PRIMARY KEY"); ("name", "TEXT"); ("code", "TEXT UNIQUE");
    ("total_cost", "REAL"); ("credits", "INTEGER"); ("duration", "REAL");
    ("description", "TEXT"); ("eligibility", "TEXT") ]%string.

Lemma X25_witness :
  exists columns',
    migrate_programs (Some old_programs) = Altered columns'
    /\ columns' = old_programs ++ missing old_programs
    /\ (forall c, In c required_columns -> In (fst c) (map fst columns'))
    /\ migrate_programs (Some columns') = Altered columns'.
Proof.
  apply X25_migration_adds_the_missing_columns.
  repeat constructor.
Defined.

(** A table written by hand with a capital letter. *)
Definition capital_programs : list column :=
  [ ("id", "INTEGER PRIMARY KEY"); ("name", "TEXT"); ("code", "TEXT UNIQUE");
    ("Eligibility", "TEXT") ]%string.

Lemma X26_witness :
  exists message, migrate_programs (Some capital_programs) = OperationalError message.
Proof.
  apply (X26_case_clash_fails_the_migration capital_programs
           ("eligibility", "TEXT")%string ("Eligibility", "TEXT")%string).
  - simpl. auto.
  - simpl. intros H. repeat destruct H as [H | H]; try discriminate H. exact H.
  - simpl. auto 10.
  - reflexivity.
Defined.

End SchemaFacts.
